(** * A shallow embedding of the LLM Driver.js browser extension

    The development follows the sources of the extension:
    - [Json]: the JavaScript values that cross the code (JSON data), their
      truthiness, property access, [JSON.stringify] and [JSON.parse];
    - [Utils]: [parseJson] of [utils.mjs] (its fenced-block regular
      expression included);
    - [Gemini]: the model gateway [callGemini] (prompt construction, the
      retry loop of [fetch], response normalisation), in its [{type, data}]
      revision and in its earlier array-returning revision;
    - [Background]: the coordinator's send-with-injection-retry helpers;
    - [Content]: the renderer ([getPageContext], [normalizeDriverSteps],
      [runDriverjs]);
    - [JsOps], [Services], [Coordinator], [BackgroundGemini],
      [ContentHandlers]: the string operations of [isMockPrompt], the AI
      service ([generateTour], [fillFormInputs]), the [GENERATE_TOUR]
      handler, the retry loop of [background.js] and the message listeners
      of the content script.

    The module [Claims] states the properties of the specification; the
    module [Extras] states further properties of the same code, on top of
    the helper facts of [ExtraFacts].

    Characters are 8-bit code units ([ascii]); a JavaScript string is a
    Rocq [string]. JSON numbers are modelled as integers ([Z]). *)

From Stdlib Require Import ZArith List Bool String Ascii Lia.
Import ListNotations.
Open Scope string_scope.
Open Scope Z_scope.
Set Warnings "-register-all,-abstract-large-number".

(* ------------------------------------------------------------------------- *)
(** ** JavaScript values and JSON *)

Module Json.

(** JSON values as [JSON.parse] produces them. Objects keep the order in
    which their keys were first created. *)
Inductive json : Type :=
| JNull
| JBool (b : bool)
| JNum (n : Z)
| JStr (s : string)
| JArr (l : list json)
| JObj (l : list (string * json)).

(** Errors a JavaScript expression can throw. *)
Inductive js_error : Type :=
| TypeError
| SyntaxError
| Error (message : string).

(** A computation that returns a value or throws. *)
Inductive except (A : Type) : Type :=
| Ok (a : A)
| Throw (e : js_error).
Arguments Ok {A} a.
Arguments Throw {A} e.

Definition bind {A B} (m : except A) (k : A -> except B) : except B :=
  match m with
  | Ok a => k a
  | Throw e => Throw e
  end.

Notation "'let*' x ':=' m 'in' k" := (bind m (fun x => k))
  (at level 200, x name, m at level 100, k at level 200).

(** *** Characters *)

Definition chr (n : nat) : ascii := ascii_of_nat n.
Definition code (c : ascii) : nat := nat_of_ascii c.

Definition dquote : ascii := chr 34.
Definition bslash : ascii := chr 92.
Definition LF : ascii := chr 10.

Definition is_digit (c : ascii) : bool :=
  (48 <=? code c)%nat && (code c <=? 57)%nat.

Definition digit_val (c : ascii) : Z := Z.of_nat (code c) - 48.

(** JSON whitespace: space, tab, line feed, carriage return. *)
Definition is_json_ws (c : ascii) : bool :=
  (code c =? 32)%nat || (code c =? 9)%nat || (code c =? 10)%nat || (code c =? 13)%nat.

Fixpoint skip_ws (s : string) : string :=
  match s with
  | EmptyString => EmptyString
  | String c r => if is_json_ws c then skip_ws r else s
  end.

(** [String.prototype.includes]. *)
Fixpoint includes (s needle : string) : bool :=
  match s with
  | EmptyString => String.prefix needle s
  | String _ r => String.prefix needle s || includes r needle
  end.

(** *** Truthiness and [typeof]; [None] is [undefined]. *)

Definition truthy (v : option json) : bool :=
  match v with
  | None => false
  | Some JNull => false
  | Some (JBool b) => b
  | Some (JNum n) => negb (n =? 0)
  | Some (JStr s) => negb (String.eqb s "")
  | Some (JArr _) => true
  | Some (JObj _) => true
  end.

Definition typeof (v : option json) : string :=
  match v with
  | None => "undefined"
  | Some JNull => "object"
  | Some (JBool _) => "boolean"
  | Some (JNum _) => "number"
  | Some (JStr _) => "string"
  | Some (JArr _) => "object"
  | Some (JObj _) => "object"
  end.

Definition isArray (v : option json) : bool :=
  match v with Some (JArr _) => true | _ => false end.

(** *** Decimal rendering of integers (as [Number.prototype.toString]
    renders a safe integer). *)

Fixpoint dec_aux (fuel : nat) (n : Z) (acc : string) : string :=
  match fuel with
  | O => acc
  | S f =>
      let acc' := String (chr (Z.to_nat (48 + n mod 10))) acc in
      if n / 10 =? 0 then acc' else dec_aux f (n / 10) acc'
  end.

Definition dec_pos (n : Z) : string := dec_aux (Z.to_nat (Z.log2 n + 1)) n "".

Definition num_to_string (n : Z) : string :=
  if n =? 0 then "0"
  else if n <? 0 then String "-" (dec_pos (- n))
  else dec_pos n.

(** *** Property access *)

(** A canonical array index: ["0"] or a digit string without leading zero. *)
Fixpoint digits_val (s : string) (acc : nat) : option nat :=
  match s with
  | EmptyString => Some acc
  | String c r =>
      if is_digit c then digits_val r (acc * 10 + (code c - 48))%nat else None
  end.

Definition array_index (k : string) : option nat :=
  match k with
  | String c EmptyString => if is_digit c then Some (code c - 48)%nat else None
  | String c r =>
      if is_digit c && negb (code c =? 48)%nat then digits_val r (code c - 48)%nat
      else None
  | EmptyString => None
  end.

Fixpoint lookup (k : string) (l : list (string * json)) : option json :=
  match l with
  | [] => None
  | (k', v) :: r => if String.eqb k k' then Some v else lookup k r
  end.

(** [v[k]] for a value that is neither [null] nor [undefined]. *)
Definition member (v : json) (k : string) : except (option json) :=
  match v with
  | JNull => Throw TypeError
  | JObj l => Ok (lookup k l)
  | JArr l =>
      if String.eqb k "length" then Ok (Some (JNum (Z.of_nat (List.length l))))
      else match array_index k with
           | Some i => Ok (nth_error l i)
           | None => Ok None
           end
  | JStr s =>
      if String.eqb k "length" then Ok (Some (JNum (Z.of_nat (String.length s))))
      else match array_index k with
           | Some i =>
               Ok (match String.get i s with
                   | Some c => Some (JStr (String c EmptyString))
                   | None => None
                   end)
           | None => Ok None
           end
  | _ => Ok None
  end.

(** [v.k]: throws on [undefined] and [null]. *)
Definition get (v : option json) (k : string) : except (option json) :=
  match v with
  | None => Throw TypeError
  | Some v => member v k
  end.

(** [v?.k]: [undefined] on [undefined] and [null]. *)
Definition get_opt (v : option json) (k : string) : except (option json) :=
  match v with
  | None | Some JNull => Ok None
  | Some v => member v k
  end.

Fixpoint index_keys (i n : nat) : list string :=
  match n with
  | O => []
  | S m => num_to_string (Z.of_nat i) :: index_keys (S i) m
  end.

(** [Object.keys v] for a value that is neither [null] nor [undefined]. *)
Definition object_keys (v : json) : list string :=
  match v with
  | JObj l => map fst l
  | JArr l => index_keys 0 (List.length l)
  | JStr s => index_keys 0 (String.length s)
  | _ => []
  end.

(** *** [JSON.stringify] *)

Definition hex_digit (n : nat) : ascii :=
  if (n <? 10)%nat then chr (48 + n) else chr (87 + n).

(** The escapes of [JSON.stringify] (QuoteJSONString): the quote and the
    backslash, the five short control escapes, [\u00xx] with lowercase hex
    digits for the other control characters. *)
Definition escape_char (c : ascii) : string :=
  let n := code c in
  if (n =? 34)%nat then String bslash (String dquote EmptyString)
  else if (n =? 92)%nat then String bslash (String bslash EmptyString)
  else if (n =? 8)%nat then String bslash "b"
  else if (n =? 12)%nat then String bslash "f"
  else if (n =? 10)%nat then String bslash "n"
  else if (n =? 13)%nat then String bslash "r"
  else if (n =? 9)%nat then String bslash "t"
  else if (n <? 32)%nat then
    String bslash ("u00" ++ String (hex_digit (n / 16)) (String (hex_digit (n mod 16)) EmptyString))
  else String c EmptyString.

Fixpoint escape (s : string) : string :=
  match s with
  | EmptyString => EmptyString
  | String c r => escape_char c ++ escape r
  end.

Definition quote (s : string) : string :=
  String dquote (escape s ++ String dquote EmptyString).

Fixpoint stringify (v : json) : string :=
  match v with
  | JNull => "null"
  | JBool true => "true"
  | JBool false => "false"
  | JNum n => num_to_string n
  | JStr s => quote s
  | JArr l =>
      "[" ++ (fix elems (l : list json) : string :=
                match l with
                | [] => EmptyString
                | x :: r =>
                    stringify x ++ match r with [] => EmptyString | _ => "," ++ elems r end
                end) l ++ "]"
  | JObj l =>
      "{" ++ (fix mems (l : list (string * json)) : string :=
                match l with
                | [] => EmptyString
                | (k, x) :: r =>
                    quote k ++ ":" ++ stringify x
                      ++ match r with [] => EmptyString | _ => "," ++ mems r end
                end) l ++ "}"
  end.

(** [JSON.stringify] of a value that may be [undefined] (which yields
    [undefined]). *)
Definition stringify_opt (v : option json) : option string := option_map stringify v.

(** *** [JSON.parse] *)

Fixpoint strip_prefix (p s : string) : option string :=
  match p, s with
  | EmptyString, _ => Some s
  | String a p', String b s' => if Ascii.eqb a b then strip_prefix p' s' else None
  | _, _ => None
  end.

Definition cons_char (c : ascii) (o : option (string * string)) : option (string * string) :=
  match o with
  | Some (t, r) => Some (String c t, r)
  | None => None
  end.

Definition hex_val (c : ascii) : option nat :=
  let n := code c in
  if (48 <=? n)%nat && (n <=? 57)%nat then Some (n - 48)%nat
  else if (97 <=? n)%nat && (n <=? 102)%nat then Some (n - 87)%nat
  else if (65 <=? n)%nat && (n <=? 70)%nat then Some (n - 55)%nat
  else None.

(** The body of a string literal, after its opening quote: the decoded
    characters and the text after the closing quote. A [\u] escape beyond
    the 8-bit code units of this model is refused. *)
Fixpoint parse_chars (s : string) : option (string * string) :=
  match s with
  | EmptyString => None
  | String c r =>
      if (code c =? 34)%nat then Some (EmptyString, r)
      else if (code c =? 92)%nat then
        match r with
        | EmptyString => None
        | String e r' =>
            let m := code e in
            if (m =? 34)%nat then cons_char dquote (parse_chars r')
            else if (m =? 92)%nat then cons_char bslash (parse_chars r')
            else if (m =? 47)%nat then cons_char (chr 47) (parse_chars r')
            else if (m =? 98)%nat then cons_char (chr 8) (parse_chars r')
            else if (m =? 102)%nat then cons_char (chr 12) (parse_chars r')
            else if (m =? 110)%nat then cons_char (chr 10) (parse_chars r')
            else if (m =? 114)%nat then cons_char (chr 13) (parse_chars r')
            else if (m =? 116)%nat then cons_char (chr 9) (parse_chars r')
            else if (m =? 117)%nat then
              match r' with
              | String h1 (String h2 (String h3 (String h4 r''))) =>
                  match hex_val h1, hex_val h2, hex_val h3, hex_val h4 with
                  | Some a, Some b, Some c', Some d =>
                      let u := (a * 4096 + b * 256 + c' * 16 + d)%nat in
                      if (u <? 256)%nat then cons_char (chr u) (parse_chars r'') else None
                  | _, _, _, _ => None
                  end
              | _ => None
              end
            else None
        end
      else if (code c <? 32)%nat then None
      else cons_char c (parse_chars r)
  end.

Fixpoint read_digits (s : string) (acc : Z) : Z * string :=
  match s with
  | EmptyString => (acc, EmptyString)
  | String c r => if is_digit c then read_digits r (acc * 10 + digit_val c) else (acc, s)
  end.

Definition parse_unsigned (s : string) : option (Z * string) :=
  match s with
  | EmptyString => None
  | String c r =>
      if (code c =? 48)%nat then Some (0, r)
      else if is_digit c then Some (read_digits r (digit_val c))
      else None
  end.

(** A number token ends at a character that cannot continue it; a fraction
    or an exponent part is not part of this integer model. *)
Definition number_end_ok (s : string) : bool :=
  match s with
  | EmptyString => true
  | String c _ =>
      negb (is_digit c || (code c =? 46)%nat || (code c =? 101)%nat || (code c =? 69)%nat)
  end.

Definition parse_number (s : string) : option (json * string) :=
  match s with
  | EmptyString => None
  | String c r =>
      let neg := (code c =? 45)%nat in
      match parse_unsigned (if neg then r else s) with
      | Some (n, r') =>
          if number_end_ok r' then Some (JNum (if neg then - n else n), r') else None
      | None => None
      end
  end.

(** A repeated key keeps its first position and takes the last value. *)
Fixpoint obj_set (k : string) (v : json) (l : list (string * json)) : list (string * json) :=
  match l with
  | [] => [(k, v)]
  | (k', v') :: r => if String.eqb k k' then (k', v) :: r else (k', v') :: obj_set k v r
  end.

Fixpoint parse_value (n : nat) (s : string) {struct n} : option (json * string) :=
  match n with
  | O => None
  | S n' =>
      let s := skip_ws s in
      match strip_prefix "null" s with
      | Some r => Some (JNull, r)
      | None =>
      match strip_prefix "true" s with
      | Some r => Some (JBool true, r)
      | None =>
      match strip_prefix "false" s with
      | Some r => Some (JBool false, r)
      | None =>
      match s with
      | EmptyString => None
      | String c r =>
          if (code c =? 34)%nat then
            match parse_chars r with
            | Some (t, r') => Some (JStr t, r')
            | None => None
            end
          else if (code c =? 91)%nat then
            match skip_ws r with
            | String d r' => if (code d =? 93)%nat then Some (JArr [], r') else parse_elems n' r []
            | EmptyString => None
            end
          else if (code c =? 123)%nat then
            match skip_ws r with
            | String d r' => if (code d =? 125)%nat then Some (JObj [], r') else parse_members n' r []
            | EmptyString => None
            end
          else parse_number s
      end end end end
  end
with parse_elems (n : nat) (s : string) (acc : list json) {struct n} : option (json * string) :=
  match n with
  | O => None
  | S n' =>
      match parse_value n' s with
      | Some (v, r) =>
          match skip_ws r with
          | String c r' =>
              if (code c =? 44)%nat then parse_elems n' r' (acc ++ [v])
              else if (code c =? 93)%nat then Some (JArr (acc ++ [v]), r')
              else None
          | EmptyString => None
          end
      | None => None
      end
  end
with parse_members (n : nat) (s : string) (acc : list (string * json)) {struct n}
  : option (json * string) :=
  match n with
  | O => None
  | S n' =>
      match skip_ws s with
      | String q r =>
          if (code q =? 34)%nat then
            match parse_chars r with
            | Some (k, r1) =>
                match skip_ws r1 with
                | String c r2 =>
                    if (code c =? 58)%nat then
                      match parse_value n' r2 with
                      | Some (v, r3) =>
                          match skip_ws r3 with
                          | String d r4 =>
                              if (code d =? 44)%nat then parse_members n' r4 (obj_set k v acc)
                              else if (code d =? 125)%nat then Some (JObj (obj_set k v acc), r4)
                              else None
                          | EmptyString => None
                          end
                      | None => None
                      end
                    else None
                | EmptyString => None
                end
            | None => None
            end
          else None
      | EmptyString => None
      end
  end.

(** [JSON.parse]: [None] when it throws a [SyntaxError]. Every nesting
    level consumes input, so the length of the text bounds the recursion. *)
Definition parse (s : string) : option json :=
  match parse_value (String.length s) s with
  | Some (v, r) =>
      match skip_ws r with
      | EmptyString => Some v
      | _ => None
      end
  | None => None
  end.

End Json.

(* ------------------------------------------------------------------------- *)
(** ** [parseJson] ([utils.mjs]) *)

Module Utils.
Import Json.

(** The regular expression of [parseJson]: an opening fence [```json]
    and a line feed, a greedy group of any characters, a line feed and a
    closing fence. *)
Definition fence_open : string := "```json" ++ String LF EmptyString.
Definition fence_close : string := String LF "```".

(** The greedy group followed by the closing fence: the longest
    prefix of [t] that is followed by [fence_close]. *)
Fixpoint last_close (t : string) : option string :=
  match t with
  | EmptyString => None
  | String c t' =>
      match last_close t' with
      | Some g => Some (String c g)
      | None => if String.prefix fence_close t then Some EmptyString else None
      end
  end.

Definition match_at (s : string) : option string :=
  match strip_prefix fence_open s with
  | Some t => last_close t
  | None => None
  end.

(** [text.match(re)]: the capture group of the leftmost match. *)
Fixpoint fence_match (s : string) : option string :=
  match match_at s with
  | Some g => Some g
  | None =>
      match s with
      | EmptyString => None
      | String _ r => fence_match r
      end
  end.

Definition parse_or_null (s : string) : json :=
  match parse s with
  | Some v => v
  | None => JNull
  end.

(** [parseJson], with the list of the texts handed to [JSON.parse] in
    order. [null] is the "no parse" signal. *)
Definition parseJson_run (text : option json) : list string * json :=
  match text with
  | Some (JStr t) =>
      match fence_match t with
      | Some g =>
          if negb (String.eqb g EmptyString) then ([g], parse_or_null g)
          else ([t], parse_or_null t)
      | None => ([t], parse_or_null t)
      end
  | _ => ([], JNull)
  end.

Definition parseJson (text : option json) : json := snd (parseJson_run text).

End Utils.

(* ------------------------------------------------------------------------- *)
(** ** The model gateway ([ai-providers/gemini.js]) *)

Module Gemini.
Import Json Utils.

Definition MAX_CONTEXT_SNIPPET_LENGTH : nat := 8000.
Definition MAX_RETRIES : Z := 3.
Definition BASE_DELAY_MS : Z := 500.

(** *** Strings of the prompt *)

(** Source texts are written with [~] in place of the double quote. *)
Definition dq (s : string) : string :=
  (fix go (s : string) : string :=
     match s with
     | EmptyString => EmptyString
     | String c r => String (if Ascii.eqb c "~"%char then dquote else c) (go r)
     end) s.

Fixpoint join (sep : string) (l : list string) : string :=
  match l with
  | [] => EmptyString
  | [x] => x
  | x :: r => x ++ sep ++ join sep r
  end.

(** [String(v)], as a template literal interpolates [v]. *)
Fixpoint to_js_string (v : json) : string :=
  match v with
  | JNull => "null"
  | JBool b => if b then "true" else "false"
  | JNum n => num_to_string n
  | JStr s => s
  | JArr l =>
      join "," (map (fun x => match x with JNull => EmptyString | _ => to_js_string x end) l)
  | JObj _ => "[object Object]"
  end.

Definition template (v : option json) : string :=
  match v with
  | None => "undefined"
  | Some v => to_js_string v
  end.

(** JavaScript white space within the 8-bit code units. *)
Definition is_js_ws (c : ascii) : bool :=
  let n := code c in
  ((9 <=? n)%nat && (n <=? 13)%nat) || (n =? 32)%nat || (n =? 160)%nat.

Fixpoint trim_left (s : string) : string :=
  match s with
  | EmptyString => EmptyString
  | String c r => if is_js_ws c then trim_left r else s
  end.

Fixpoint trim_right (s : string) : string :=
  match s with
  | EmptyString => EmptyString
  | String c r =>
      let r' := trim_right r in
      if String.eqb r' EmptyString && is_js_ws c then EmptyString else String c r'
  end.

(** [String.prototype.trim]. *)
Definition trim (s : string) : string := trim_right (trim_left s).

(** [v.slice(0, n)] for a string or an array; any other value has no
    [slice] method. *)
Definition slice0 (v : option json) (n : nat) : except (option json) :=
  match v with
  | Some (JStr s) => Ok (Some (JStr (String.substring 0 n s)))
  | Some (JArr l) => Ok (Some (JArr (firstn n l)))
  | _ => Throw TypeError
  end.

Definition NL2 : string := String LF (String LF EmptyString).

Definition buildContextPrompt (pageContext : option json) : except string :=
  if negb (truthy pageContext) then Ok EmptyString else
  let* title := get pageContext "title" in
  let parts := if truthy title then ["Title: " ++ template title] else [] in
  let* url := get pageContext "url" in
  let parts := List.app parts (if truthy url then ["URL: " ++ template url] else []) in
  let* snippet := get pageContext "textSnippet" in
  let* parts :=
    if truthy snippet then
      let* sl := slice0 snippet MAX_CONTEXT_SNIPPET_LENGTH in
      Ok (List.app parts ["Page text snippet:" ++ String LF (template sl)])
    else Ok parts in
  match parts with
  | [] => Ok EmptyString
  | _ => Ok ("---PAGE CONTEXT---" ++ String LF (join NL2 parts))
  end.

Definition object_keys_opt (v : option json) : list string :=
  match v with
  | Some v => object_keys v
  | None => []
  end.

Definition RESPONSE_FORMAT : string :=
  dq "
---RESPONSE FORMAT---
Return ONLY a JSON object (no surrounding text).
The object must have a ~type~ property and a ~data~ property.
".

Definition TOUR_FORMAT : string :=
  dq "
IF YOU GENERATE A NEW TOUR (type=~tour~):
~data~ must be an array of step objects.
Each entry must be an object with the following shape when targeting a page element:
{
  ~element~: ~<css selector>~,
  ~popover~: {
    ~title~: ~...~,
    ~description~: ~...~,
    ~side~: ~left|right|top|bottom~,
    ~align~: ~start|center|end~
  }
}
Selector rules:
- Use only CSS selectors that work with document.querySelector(). Do NOT use XPath.
- Prefer id (#id) or specific class combinations.
- Avoid brittle selectors.

" ++ dq "Example tour output:
{
  ~type~: ~tour~,
  ~data~: [
    { ~element~: ~#header~, ~popover~: { ~title~: ~Header~, ~description~: ~...~ } }
  ]
}
".

Definition fill_form_format (tourName : option json) (keys : list string) : string :=
  dq "
IF YOU FILL INPUTS FOR EXISTING TOUR (type=~fill_input_form~):
~data~ must be an object containing ~tourName~ and ~formInput~.
- ~tourName~: Must be ~"
    ++ template tourName
    ++ dq "~.
- ~formInput~: An object where keys are the target input keys and values are extracted from the User Prompt.

Target Input Keys: "
    ++ stringify (JArr (map JStr keys))
    ++ dq "

" ++ dq "Example fill_input_form output:
{
  ~type~: ~fill_input_form~,
  ~data~: {
    ~tourName~: ~"
    ++ template tourName
    ++ dq "~,
    ~formInput~: {
      ~origin~: ~London~,
      ~destination~: ~Paris~
    }
  }
}
".

Definition DECISION_LOGIC : string :=
  dq "
DECISION LOGIC:
- If you are provided with an EXISTING TOUR, you MUST return type=~fill_input_form~.
- If the user asks for a new tour and you have Page Context, return type=~tour~.
".

Definition buildOutputInstruction (hasPageContext : bool) (tour : option json) : except string :=
  let instructions := RESPONSE_FORMAT in
  let instructions := if hasPageContext then instructions ++ TOUR_FORMAT else instructions in
  let* instructions :=
    if truthy tour then
      let* formInputs := get tour "formInputs" in
      let keys := if truthy formInputs then object_keys_opt formInputs else [] in
      let* tourName := get tour "tourName" in
      Ok (instructions ++ fill_form_format tourName keys)
    else Ok instructions in
  Ok (trim (instructions ++ DECISION_LOGIC)).

(** The combined prompt text of [callGemini(apiKey, userPrompt,
    {pageContext, tour})]. The source overwrites [pageContext] with [""]
    before it is used. *)
Definition prompt_text (userPrompt : string) (pageContext tour : option json) : except string :=
  let pageContext := Some (JStr EmptyString) in
  let hasPageContext :=
    truthy pageContext && (0 <? List.length (object_keys_opt pageContext))%nat in
  let* contextPrompt := buildContextPrompt pageContext in
  let* outputInstruction := buildOutputInstruction hasPageContext tour in
  let combinedText := "User Prompt: " ++ String dquote (userPrompt ++ String dquote (NL2 ++ contextPrompt)) in
  let* combinedText :=
    if truthy tour then
      let* tourName := get tour "tourName" in
      let* description := get tour "description" in
      let* formInputs := get tour "formInputs" in
      Ok (combinedText ++ NL2 ++ "---EXISTING TOUR---" ++ String LF ("Name: " ++ template tourName)
          ++ String LF ("Description: " ++ template description)
          ++ String LF ("Form Inputs: " ++ match stringify_opt formInputs with
                                            | Some t => t
                                            | None => "undefined"
                                            end))
    else Ok combinedText in
  Ok (combinedText ++ NL2 ++ outputInstruction).

(** The output instruction of the earlier, array-returning revision. *)
Definition OUTPUT_INSTRUCTION_V1 : string :=
  trim (dq "
---RESPONSE FORMAT---
Return ONLY a JSON array (no surrounding text) which we'll call steps.
Each entry must be an object with the following shape when targeting a page element:
{
  ~element~: ~<css selector>~,
  ~popover~: {
    ~title~: ~...~,
    ~description~: ~...~,
    ~side~: ~left|right|top|bottom~,
    ~align~: ~start|center|end~
  }
}
If a step is not attached to a DOM element (a summary/closing step), you must omit the ~element~ key or set it to null, e.g. { ~popover~: { ... } } or { ~element~: null, ~popover~: { ... } }.

Selector rules (very important):
- Use only CSS selectors that work with document.querySelector(). Do NOT use XPath.
- Prefer an id selector when available: use ~#the-id~.
- If no id, prefer class-based selectors: use a single class like ~.my-class~ or combine multiple classes as ~.a.b~ when necessary to make the selector specific.
- If id or classes are not available or not unique, fall back to the tag name (e.g. ~button~, ~h2~) optionally combined with :nth-of-type or simple descendant selectors to make it unique, but avoid overly brittle selectors.
- Avoid including full text content in the selector. Keep selectors concise and valid for querySelector().
- Do NOT include newlines inside selector strings. Escape characters as needed.

Return only the JSON array — no extra commentary, no surrounding markdown, and make sure strings are properly escaped.

" ++ dq "Example output (exactly this JSON shape):
[
  { ~element~: ~#tour-example~, ~popover~: { ~title~: ~Animated Tour Example~, ~description~: ~Short description here.~, ~side~: ~left~, ~align~: ~start~ } },
  { ~element~: ~.nav-item.active~, ~popover~: { ~title~: ~Navigation~, ~description~: ~Explain the nav item.~, ~side~: ~bottom~, ~align~: ~center~ } },
  { ~popover~: { ~title~: ~Happy Coding~, ~description~: ~Final note for the user.~ } }
]
").

(** The combined prompt text of the earlier revision
    [callGemini(apiKey, userPrompt, pageContext)]. *)
Definition prompt_text_v1 (userPrompt : string) (pageContext : option json) : except string :=
  let* contextPrompt := buildContextPrompt pageContext in
  Ok (userPrompt ++ NL2 ++ contextPrompt ++ NL2 ++ OUTPUT_INSTRUCTION_V1).

(** The request body [{contents: [{parts: [{text}]}]}]. *)
Definition request_body (text : string) : json :=
  JObj [("contents", JArr [JObj [("parts", JArr [JObj [("text", JStr text)]])]])].

(** *** Response normalisation *)

(** The value [callGemini] returns: the parsed output unchanged, or one of
    the objects the fallbacks build. *)
Inductive model_result : Type :=
| MRParsed (v : json)                                   (* [return result] *)
| MRTour (data : json)                                  (* [{type: 'tour', data}] *)
| MRFill (tourName : option json) (formInput : json)    (* [{type: 'fill_input_form', data: {tourName, formInput}}] *)
| MRUnknown (data : json).                              (* [{type: 'unknown', data}] *)

(** [apiResp.candidates?.[0]?.content?.parts?.[0]?.text || ''], then the
    empty-text check. *)
Definition generated_text (apiResp : json) : except json :=
  let* candidates := get (Some apiResp) "candidates" in
  let* c0 := get_opt candidates "0" in
  let* content := get_opt c0 "content" in
  let* parts := get_opt content "parts" in
  let* p0 := get_opt parts "0" in
  let* text := get_opt p0 "text" in
  let genText := if truthy text then text else Some (JStr EmptyString) in
  if negb (truthy genText) then
    Throw (Error "API response was successful but contained no generated text.")
  else match genText with
       | Some g => Ok g
       | None => Throw TypeError
       end.

(** The checks after [const result = parseJson(genText)]. *)
Definition normalize (tour : option json) (result : json) : except model_result :=
  let r := Some result in
  let* missing :=
    if negb (truthy r) then Ok true
    else let* ty := get r "type" in
         if negb (truthy ty) then Ok true
         else let* data := get r "data" in Ok (negb (truthy data)) in
  if missing then
    if isArray r then Ok (MRTour result)
    else if String.eqb (typeof r) "object" then
      let* r0 := get r "0" in
      let* looks_like_step :=
        if truthy r0 then let* pop := get r0 "popover" in Ok (truthy pop) else Ok false in
      if looks_like_step then Ok (MRTour result)
      else
        let* fill :=
          if truthy tour then
            let* formInputs := get tour "formInputs" in
            if truthy formInputs then
              let inputKeys := object_keys_opt formInputs in
              let resultKeys := object_keys result in
              let hasOverlap :=
                existsb (fun k => existsb (String.eqb k) inputKeys) resultKeys in
              if hasOverlap then
                let* tourName := get tour "tourName" in Ok (Some (MRFill tourName result))
              else Ok None
            else Ok None
          else Ok None in
        match fill with
        | Some m => Ok m
        | None => Ok (MRUnknown result)
        end
    else Ok (MRUnknown result)
  else Ok (MRParsed result).

(** The success path of an attempt, from [resp.json()] on: the
    [{type, data}] revision. *)
Definition process (tour : option json) (body : string) : except model_result :=
  match parse body with
  | None => Throw SyntaxError
  | Some apiResp =>
      let* genText := generated_text apiResp in
      normalize tour (parseJson (Some genText))
  end.

(** The success path of an attempt in the earlier revision: a non-array
    parse gives an empty step list. *)
Definition process_v1 (body : string) : except json :=
  match parse body with
  | None => Throw SyntaxError
  | Some apiResp =>
      let* genText := generated_text apiResp in
      let steps := parseJson (Some genText) in
      if isArray (Some steps) then Ok steps else Ok (JArr [])
  end.

(** *** The retry loop *)

(** What [fetch] does on one attempt: it rejects (a network-level failure)
    or it resolves to a response with a status and a body text. *)
Inductive outcome : Type :=
| FetchReject (e : js_error)
| FetchResponse (status : Z) (body : string).

(** The observable steps of a call: the POSTs and the backoff sleeps. *)
Inductive event : Type :=
| EvFetch (attempt : Z) (payload : string)
| EvSleep (ms : Z).

(** The simulated transport answers in order; once its outcomes are used
    up, [fetch] rejects. *)
Definition next_outcome (outs : list outcome) : outcome * list outcome :=
  match outs with
  | [] => (FetchReject TypeError, [])
  | o :: r => (o, r)
  end.

Definition resp_ok (status : Z) : bool := (200 <=? status) && (status <=? 299).

Definition delay (attempt : Z) : Z := BASE_DELAY_MS * 2 ^ (attempt - 1).

Definition api_error (status : Z) (body : string) : js_error :=
  Error ("Generative Language API Error " ++ num_to_string status ++ ": " ++ body).

Definition after_all_retries : js_error :=
  Error "Failed to call Generative Language API after all retries.".

Section Retry.
Variable A : Type.
(** What a 2xx response becomes. *)
Variable on_success : string -> except A.
(** The serialized request body. *)
Variable payload : string.

(** How the [try] block of one attempt ends. *)
Inductive try_end : Type :=
| TReturn (a : A)
| TContinue
| TThrow (e : js_error).

(** The [try] block: its own sleep (the 5xx branch) and how it ends. *)
Definition try_block (attempt : Z) (o : outcome) : list event * try_end :=
  match o with
  | FetchReject e => ([], TThrow e)
  | FetchResponse status body =>
      if resp_ok status then
        match on_success body with
        | Ok a => ([], TReturn a)
        | Throw e => ([], TThrow e)
        end
      else if (500 <=? status) && (attempt <? MAX_RETRIES) then
        ([EvSleep (delay attempt)], TContinue)
      else ([], TThrow (api_error status body))
  end.

(** [for (let attempt = ...; attempt <= MAX_RETRIES; attempt++)] with its
    [try]/[catch]; [fuel] only bounds the recursion. *)
Fixpoint attempts (fuel : nat) (attempt : Z) (outs : list outcome) : list event * except A :=
  match fuel with
  | O => ([], Throw after_all_retries)
  | S f =>
      if attempt <=? MAX_RETRIES then
        let (o, outs') := next_outcome outs in
        let (evs, te) := try_block attempt o in
        let evs := EvFetch attempt payload :: evs in
        match te with
        | TReturn a => (evs, Ok a)
        | TContinue =>
            let (evs', r) := attempts f (attempt + 1) outs' in ((evs ++ evs')%list, r)
        | TThrow e =>
            if attempt <? MAX_RETRIES then
              let (evs', r) := attempts f (attempt + 1) outs' in
              ((evs ++ EvSleep (delay attempt) :: evs')%list, r)
            else (evs, Throw e)
        end
      else ([], Throw after_all_retries)
  end.

(** The loop entered at [attempt]. *)
Definition attempts_from (attempt : Z) (outs : list outcome) : list event * except A :=
  attempts (Z.to_nat (MAX_RETRIES - attempt + 1)) attempt outs.

End Retry.

Arguments attempts {A} on_success payload fuel attempt outs.
Arguments attempts_from {A} on_success payload attempt outs.
Arguments try_block {A} on_success attempt o.
Arguments TReturn {A} a.
Arguments TContinue {A}.
Arguments TThrow {A} e.

(** [callGemini(apiKey, userPrompt, {pageContext, tour})] against a
    simulated transport. *)
Definition callGemini (userPrompt : string) (pageContext tour : option json)
    (outs : list outcome) : list event * except model_result :=
  match prompt_text userPrompt pageContext tour with
  | Throw e => ([], Throw e)
  | Ok text => attempts_from (process tour) (stringify (request_body text)) 1 outs
  end.

(** The earlier revision [callGemini(apiKey, userPrompt, pageContext)]. *)
Definition callGemini_v1 (userPrompt : string) (pageContext : option json)
    (outs : list outcome) : list event * except json :=
  match prompt_text_v1 userPrompt pageContext with
  | Throw e => ([], Throw e)
  | Ok text => attempts_from process_v1 (stringify (request_body text)) 1 outs
  end.

(** The number of retries of a call: the backoff sleeps. *)
Definition retries (evs : list event) : nat :=
  List.length (filter (fun e => match e with EvSleep _ => true | _ => false end) evs).

Definition fetches (evs : list event) : nat :=
  List.length (filter (fun e => match e with EvFetch _ _ => true | _ => false end) evs).

End Gemini.

(* ------------------------------------------------------------------------- *)
(** ** The coordinator's delivery with injection retry *)

Module Background.
Import Json.

(** What [chrome.tabs.sendMessage] and [chrome.scripting.executeScript]
    report on one call. *)
Inductive send_result : Type :=
| Delivered (response : option json)
| Undelivered (message : string).

Inductive inject_result : Type :=
| Injected
| InjectFailed (message : string).

(** The calls the coordinator makes on the browser. *)
Inductive action : Type :=
| ASend (tabId : Z) (message : json)
| AInject (tabId : Z) (file : string).

(** The browser as the coordinator sees it: the results its next calls
    get, in order, and the calls made so far (newest first). Once the
    scripted results are used up, a send fails with an empty message and
    an injection fails likewise. *)
Record world : Type := {
  sends : list send_result;
  injects : list inject_result;
  log : list action
}.

(** A state-and-exception monad over the browser. *)
Definition M (A : Type) : Type := world -> except A * world.

Definition ret {A} (a : A) : M A := fun w => (Ok a, w).
Definition throw {A} (e : js_error) : M A := fun w => (Throw e, w).
Definition mbind {A B} (m : M A) (k : A -> M B) : M B :=
  fun w => match m w with
           | (Ok a, w') => k a w'
           | (Throw e, w') => (Throw e, w')
           end.
(** [try { m } catch (e) { h(e) }]. *)
Definition catch {A} (m : M A) (h : js_error -> M A) : M A :=
  fun w => match m w with
           | (Ok a, w') => (Ok a, w')
           | (Throw e, w') => h e w'
           end.

Notation "x <- m ;; k" := (mbind m (fun x => k)) (at level 61, m at next level, right associativity).
Notation "m ;;; k" := (mbind m (fun _ => k)) (at level 61, right associativity).

(** [chrome.tabs.sendMessage(tabId, message)]: resolves to the response or
    rejects with an [Error]. *)
Definition sendMessage (tabId : Z) (message : json) : M (option json) :=
  fun w =>
    let w' := {| sends := tl (sends w); injects := injects w;
                 log := ASend tabId message :: log w |} in
    match hd (Undelivered EmptyString) (sends w) with
    | Delivered r => (Ok r, w')
    | Undelivered m => (Throw (Error m), w')
    end.

(** [chrome.scripting.executeScript({target: {tabId}, files: [file]})]. *)
Definition executeScript (tabId : Z) (file : string) : M unit :=
  fun w =>
    let w' := {| sends := sends w; injects := tl (injects w);
                 log := AInject tabId file :: log w |} in
    match hd (InjectFailed EmptyString) (injects w) with
    | Injected => (Ok tt, w')
    | InjectFailed m => (Throw (Error m), w')
    end.

(** [e.message]; the texts of built-in errors are not modelled. *)
Definition message_of (e : js_error) : string :=
  match e with
  | Error m => m
  | TypeError => "TypeError"
  | SyntaxError => "SyntaxError"
  end.

(** [isMissingReceiverError]. *)
Definition isMissingReceiverError (e : js_error) : bool :=
  includes (message_of e) "Could not establish connection"
  || includes (message_of e) "Receiving end does not exist".

(** [sendMessageWithInjectionRetry(tabId, message)] of the promise-based
    coordinator. *)
Definition sendMessageWithInjectionRetry (tabId : Z) (message : json) : M (option json) :=
  catch (sendMessage tabId message)
    (fun initialError =>
       if negb (isMissingReceiverError initialError) then
         throw (Error ("SendMessage failed: " ++ message_of initialError))
       else
         catch (executeScript tabId "content.js" ;;; sendMessage tabId message)
           (fun injectionError =>
              throw (Error ("Failed to inject content script or retry message failed: "
                            ++ message_of injectionError)))).

(** [sendMessageToTab(tabId, msg, cb)] of the callback-based [background.js]:
    [cb(err)] is a thrown error, [cb(null, resp)] a result. *)
Definition sendMessageToTab (tabId : Z) (msg : json) : M (option json) :=
  catch (sendMessage tabId msg)
    (fun lastError =>
       let err := message_of lastError in
       if includes err "Could not establish connection"
          || includes err "Receiving end does not exist" then
         catch (executeScript tabId "content.js")
           (fun e => throw (Error ("Failed to inject content script: " ++ message_of e))) ;;;
         catch (sendMessage tabId msg)
           (fun e => throw (Error ("No receiver after injection: " ++ message_of e)))
       else
         throw (Error (if String.eqb err EmptyString then "Unknown sendMessage error" else err))).

(** Runs a coordinator step from a browser with the given scripted results;
    returns the calls made, oldest first, and the outcome. *)
Definition run {A} (m : M A) (ss : list send_result) (is : list inject_result)
  : list action * except A :=
  let (r, w) := m {| sends := ss; injects := is; log := [] |} in (rev (log w), r).

End Background.

(* ------------------------------------------------------------------------- *)
(** ** The renderer (content script) *)

Module Content.
Import Json Gemini.

(** *** The page snapshot *)

Record element : Type := {
  tagName : string;
  outerHTML : string
}.

(** The page as [getPageContext] reads it: [body] is [None] when
    [document.body] is [null], otherwise its elements in document order. *)
Record document : Type := {
  title : string;
  href : string;
  body : option (list element)
}.

Definition CONTEXT_ELEMENT_TAGS : list string := ["A"; "BUTTON"].

(** The regular expression [<svg[^>]*>] then the shortest run of any
    characters up to [</svg>]: the text after a match at the head of [s]. *)
Fixpoint skip_to_gt (s : string) : option string :=
  match s with
  | EmptyString => None
  | String c r => if (code c =? 62)%nat then Some r else skip_to_gt r
  end.

Fixpoint after_svg_close (s : string) : option string :=
  match strip_prefix "</svg>" s with
  | Some r => Some r
  | None =>
      match s with
      | EmptyString => None
      | String _ r => after_svg_close r
      end
  end.

Definition svg_match_at (s : string) : option string :=
  match strip_prefix "<svg" s with
  | Some t =>
      match skip_to_gt t with
      | Some t' => after_svg_close t'
      | None => None
      end
  | None => None
  end.

Fixpoint remove_svg_aux (fuel : nat) (s : string) : string :=
  match fuel with
  | O => s
  | S f =>
      match svg_match_at s with
      | Some r => remove_svg_aux f r
      | None =>
          match s with
          | EmptyString => EmptyString
          | String c r => String c (remove_svg_aux f r)
          end
      end
  end.

(** [removeSvgFromHtml]: [htmlString.replace(svgRegex, '')] with the
    global flag. *)
Definition removeSvgFromHtml (htmlString : string) : string :=
  remove_svg_aux (S (String.length htmlString)) htmlString.

Definition is_context_element (e : element) : bool :=
  existsb (String.eqb (tagName e)) CONTEXT_ELEMENT_TAGS.

Definition snippet_of (els : list element) : string :=
  trim (join (String LF EmptyString)
          (map (fun x => removeSvgFromHtml (outerHTML x)) (filter is_context_element els))).

(** [getPageContext()] at time [now]. *)
Definition getPageContext (doc : document) (now : Z) : json :=
  match body doc with
  | Some els =>
      let textSnippet := snippet_of els in
      JObj [("title", JStr (title doc)); ("url", JStr (href doc));
            ("textSnippet", if String.eqb textSnippet EmptyString then JNull else JStr textSnippet);
            ("timestamp", JNum now)]
  | None =>
      JObj [("title", JStr (title doc)); ("url", JStr (href doc));
            ("textSnippet", JNull); ("timestamp", JNum now)]
  end.

(** The reply of [handleMessages] to [REQUEST_PAGE_CONTEXT]. *)
Definition handle_request_page_context (doc : document) (now : Z) : json :=
  JObj [("pageContext", getPageContext doc now)].

(** The reply of the inline [REQUEST_PAGE_CONTEXT] listener registered
    first in the same content script: it selects every element and keeps
    the anchors and buttons, and replies with an empty context when the
    snapshot throws. *)
Definition inline_request_page_context (doc : document) (now : Z) : json :=
  match body doc with
  | Some els =>
      let textSnippet := snippet_of els in
      JObj [("pageContext",
             JObj [("title", JStr (title doc)); ("url", JStr (href doc));
                   ("textSnippet", if String.eqb textSnippet EmptyString then JNull else JStr textSnippet);
                   ("timestamp", JNum now)])]
  | None => JObj [("pageContext", JObj [])]
  end.

(** *** Tour steps *)

(** The [element] of a normalised step: a lazily evaluated XPath lookup,
    the selector value itself, or [null]. *)
Inductive locator : Type :=
| LXPath (xpath : option json)
| LValue (v : option json)
| LNull.

(** The [popover] of a normalised step: the step's own, or one built from
    its title and description. *)
Inductive popover_desc : Type :=
| PopGiven (v : option json)
| PopBuilt (title description : option json).

Record norm_step : Type := {
  ns_element : locator;
  ns_popover : popover_desc;
  ns_onHighlightStarted : bool;   (* [waitForInput] hook attached *)
  ns_onNextClick : bool           (* [nextActions] handler attached *)
}.

(** One step of [normalizeDriverSteps]. *)
Definition normalize_step (s : json) : except norm_step :=
  let sv := Some s in
  let* xpath := get sv "xpath" in
  let* element :=
    if truthy xpath then Ok (LXPath xpath)
    else let* e := get sv "element" in
         if truthy e then Ok (LValue e)
         else let* sel := get sv "selector" in
              if truthy sel then Ok (LValue sel) else Ok LNull in
  let* pop := get sv "popover" in
  let* popover :=
    if truthy pop then Ok (PopGiven pop)
    else let* t := get sv "title" in
         let* d := get sv "description" in
         Ok (PopBuilt (if truthy t then t else Some (JStr EmptyString))
                      (if truthy d then d else Some (JStr EmptyString))) in
  let* waitForInput := get sv "waitForInput" in
  let* nextActions := get sv "nextActions" in
  Ok {| ns_element := element; ns_popover := popover;
        ns_onHighlightStarted := truthy waitForInput;
        ns_onNextClick := truthy nextActions && isArray nextActions |}.

Fixpoint normalizeDriverSteps (steps : list json) : except (list norm_step) :=
  match steps with
  | [] => Ok []
  | s :: r =>
      let* n := normalize_step s in
      let* ns := normalizeDriverSteps r in
      Ok (n :: ns)
  end.

(** [window.driver] as [runDriverjs] finds it. *)
Inductive window_driver : Type :=
| DriverUndefined                 (* [typeof window.driver === 'undefined'] *)
| DriverWithoutJs                 (* [window.driver.js] is [undefined] *)
| DriverJs (factory : bool).      (* whether [window.driver.js.driver] is a function *)

(** [runDriverjs(steps)]: the step sequences handed to the highlighting
    library's factory [window.driver.js.driver], in call order. Errors of
    the factory call are caught by the source and do not undo the call. *)
Definition runDriverjs (w : window_driver) (steps : list json) : except (list (list norm_step)) :=
  let* normalizedSteps := normalizeDriverSteps steps in
  match normalizedSteps with
  | [] => Ok []
  | _ =>
      match w with
      | DriverUndefined => Ok []
      | DriverWithoutJs => Ok []
      | DriverJs false => Ok []
      | DriverJs true => Ok [normalizedSteps]
      end
  end.

End Content.

(* ------------------------------------------------------------------------- *)
(** ** Measures and invariants used by the proofs *)

Module JsonWf.
Import Json.

(** Keys without repetition: a JavaScript object has each key once. *)
Fixpoint keys_nodup (ks : list string) : bool :=
  match ks with
  | [] => true
  | k :: r => negb (existsb (String.eqb k) r) && keys_nodup r
  end.

(** The JSON values a JavaScript value can be: objects with distinct keys,
    at every depth. *)
Fixpoint json_wf (v : json) : bool :=
  match v with
  | JArr l => forallb json_wf l
  | JObj l => keys_nodup (map fst l) && forallb (fun '(_, x) => json_wf x) l
  | _ => true
  end.

(** The array and object bodies of [stringify], as functions of their own. *)
Fixpoint elems_str (l : list json) : string :=
  match l with
  | [] => EmptyString
  | x :: r => stringify x ++ match r with [] => EmptyString | _ => "," ++ elems_str r end
  end.

Fixpoint mems_str (l : list (string * json)) : string :=
  match l with
  | [] => EmptyString
  | (k, x) :: r =>
      quote k ++ ":" ++ stringify x ++ match r with [] => EmptyString | _ => "," ++ mems_str r end
  end.

(** The nesting depth [parse_value] needs to read [stringify v] back. *)
Fixpoint need (v : json) : nat :=
  match v with
  | JArr l =>
      S ((fix en (l : list json) : nat :=
            match l with [] => O | x :: r => S (Nat.max (need x) (en r)) end) l)
  | JObj l =>
      S ((fix mn (l : list (string * json)) : nat :=
            match l with [] => O | (_, x) :: r => S (Nat.max (need x) (mn r)) end) l)
  | _ => 1%nat
  end.

Fixpoint elems_need (l : list json) : nat :=
  match l with [] => O | x :: r => S (Nat.max (need x) (elems_need r)) end.

Fixpoint mems_need (l : list (string * json)) : nat :=
  match l with [] => O | (_, x) :: r => S (Nat.max (need x) (mems_need r)) end.

(** What may follow a value inside a JSON text: the end, a comma, a closing
    bracket or brace. *)
Definition stop (r : string) : bool :=
  match r with
  | EmptyString => true
  | String c _ => (code c =? 44)%nat || (code c =? 93)%nat || (code c =? 125)%nat
  end.

Fixpoint no_lf (s : string) : bool :=
  match s with
  | EmptyString => true
  | String c r => negb (code c =? 10)%nat && no_lf r
  end.

End JsonWf.

(* ------------------------------------------------------------------------- *)
(** ** The gateway's contract in the words of its specification *)

Module GatewaySpec.
Import Json Gemini.

(** [v[k]] where it does not throw; [undefined] otherwise. *)
Definition field (v : json) (k : string) : option json :=
  match member v k with
  | Ok x => x
  | Throw _ => None
  end.

Definition field_opt (v : option json) (k : string) : option json :=
  match v with
  | Some v => field v k
  | None => None
  end.

(** A field that is there at all. *)
Definition present (v : option json) : bool :=
  match v with
  | Some _ => true
  | None => false
  end.

(** The normalisation of the parsed model output as the specification
    states it: a value with both a [type] and a [data] field is returned
    unchanged; otherwise a bare array is a tour, an object whose element
    at index 0 has a [popover] field is a tour, an object with a key among
    the existing tour's [formInputs] keys is a form fill, and anything else
    is unknown. [has] says when a field counts as there. *)
Definition normalize_spec (has : option json -> bool) (tour : option json) (result : json)
  : model_result :=
  let r := Some result in
  if has (field_opt r "type") && has (field_opt r "data") then MRParsed result
  else match result with
       | JArr _ => MRTour result
       | JObj _ =>
           if has (field_opt (field_opt r "0") "popover") then MRTour result
           else if has tour && has (field_opt tour "formInputs")
                   && existsb (fun k => existsb (String.eqb k)
                                          (object_keys_opt (field_opt tour "formInputs")))
                              (object_keys result)
           then MRFill (field_opt tour "tourName") result
           else MRUnknown result
       | _ => MRUnknown result
       end.

(** The outcomes the specification calls transient: a network-level
    failure or a status of at least 500. *)
Definition transient (o : outcome) : bool :=
  match o with
  | FetchReject _ => true
  | FetchResponse status _ => 500 <=? status
  end.

(** A body of the API's reply carrying one generated text. *)
Definition api_response (text : string) : json :=
  JObj [("candidates", JArr [JObj [("content", JObj [("parts", JArr [JObj [("text", JStr text)]])])]])].

(** A page context with a title, a url and a snippet. *)
Definition example_context : json :=
  JObj [("title", JStr "T"); ("url", JStr "u"); ("textSnippet", JStr "<a>x</a>")].

End GatewaySpec.

Module BackgroundSpec.
Import Json Background.

(** What the specification asks of a delivery to a tab: a delivered send
    is the result; a failure that is not a missing receiver is thrown at
    once; a missing receiver leads to one injection of [content.js] and,
    if it succeeds, one more send, whose failure is thrown. *)
Definition delivery_contract (h : Z -> json -> M (option json)) (tabId : Z) (msg : json) : Prop :=
  (forall r ss is, run (h tabId msg) (Delivered r :: ss) is = ([ASend tabId msg], Ok r))
  /\ (forall m ss is, isMissingReceiverError (Error m) = false ->
        exists e, run (h tabId msg) (Undelivered m :: ss) is = ([ASend tabId msg], Throw e))
  /\ (forall m ss m' is, isMissingReceiverError (Error m) = true ->
        exists e, run (h tabId msg) (Undelivered m :: ss) (InjectFailed m' :: is)
                  = ([ASend tabId msg; AInject tabId "content.js"], Throw e))
  /\ (forall m r ss is, isMissingReceiverError (Error m) = true ->
        run (h tabId msg) (Undelivered m :: Delivered r :: ss) (Injected :: is)
        = ([ASend tabId msg; AInject tabId "content.js"; ASend tabId msg], Ok r))
  /\ (forall m m2 ss is, isMissingReceiverError (Error m) = true ->
        exists e, run (h tabId msg) (Undelivered m :: Undelivered m2 :: ss) (Injected :: is)
                  = ([ASend tabId msg; AInject tabId "content.js"; ASend tabId msg], Throw e)).

End BackgroundSpec.

(* ------------------------------------------------------------------------- *)
(** ** JavaScript string operations used by the services *)

Module JsOps.
Import Json.

(** [v === s] for a string literal [s]. *)
Definition js_eq_str (v : option json) (s : string) : bool :=
  match v with
  | Some (JStr t) => String.eqb t s
  | _ => false
  end.

(** [String.prototype.toLowerCase] on 8-bit code units: [A]-[Z] and the
    Latin-1 capitals [U+00C0]-[U+00DE] but [U+00D7] move up by 32. *)
Definition to_lower_char (c : ascii) : ascii :=
  let n := code c in
  if ((65 <=? n)%nat && (n <=? 90)%nat)
     || ((192 <=? n)%nat && (n <=? 222)%nat && negb (n =? 215)%nat)
  then chr (n + 32) else c.

Fixpoint toLowerCase (s : string) : string :=
  match s with
  | EmptyString => EmptyString
  | String c r => String (to_lower_char c) (toLowerCase r)
  end.

(** [String(err)] for an [Error]: its message, or ["Error"] when empty. *)
Definition error_string (e : js_error) : string :=
  if String.eqb (Background.message_of e) EmptyString then "Error" else Background.message_of e.

End JsOps.

(* ------------------------------------------------------------------------- *)
(** ** The AI service ([ai-service.js], the [{type, data}] revision) *)

Module Services.
Import Json Gemini JsOps.

(** The object [callGemini] resolves to. A [tourName] that is [undefined]
    is left out: reading it gives [undefined] either way. *)
Definition result_json (m : model_result) : json :=
  match m with
  | MRParsed v => v
  | MRTour d => JObj [("type", JStr "tour"); ("data", d)]
  | MRFill tourName formInput =>
      JObj [("type", JStr "fill_input_form");
            ("data", JObj (List.app (match tourName with
                                     | Some n => [("tourName", n)]
                                     | None => []
                                     end) [("formInput", formInput)]))]
  | MRUnknown d => JObj [("type", JStr "unknown"); ("data", d)]
  end.

(** [prompt.trim().toLowerCase().startsWith('mock:')]. *)
Definition isMockPrompt (prompt : string) : bool :=
  String.prefix "mock:" (toLowerCase (trim prompt)).

(** Steps 3 of [generateTour]: what it makes of the response. *)
Definition route_tour (response : json) : except (option json) :=
  let r := Some response in
  let* ty := get r "type" in
  let* is_tour :=
    if js_eq_str ty "tour" then let* data := get r "data" in Ok (isArray data) else Ok false in
  if is_tour then get r "data"
  else if js_eq_str ty "fill_input_form" then Ok r
  else if isArray r then Ok r
  else
    let* data := get r "data" in
    if truthy data && isArray data then Ok data
    else Throw (Error ("Expected tour steps but got type: " ++ template ty)).

(** What [fillFormInputs] makes of the response. *)
Definition route_inputs (response : json) : except (option json) :=
  let r := Some response in
  let* ty := get r "type" in
  let* fill :=
    if js_eq_str ty "fill_input_form" then
      let* data := get r "data" in
      if truthy data then let* fi := get data "formInput" in Ok (truthy fi) else Ok false
    else Ok false in
  if fill then let* data := get r "data" in get data "formInput"
  else
    let* inputs :=
      if js_eq_str ty "inputs" then
        let* data := get r "data" in Ok (String.eqb (typeof data) "object")
      else Ok false in
    if inputs then get r "data"
    else
      let* data := get r "data" in
      if truthy data then Ok data
      else if negb (truthy ty) && String.eqb (typeof r) "object" then Ok r
      else Throw (Error ("Expected form inputs but got type: " ++ template ty)).

Section Mock.
(** [callMockProvider] of [./ai-providers/mock-provider.js], which the
    repository does not contain. *)
Variable callMockProvider : string -> option json -> except json.

(** [generateTour(apiKey, prompt, pageContext, tour)]. *)
Definition generateTour (prompt : string) (pageContext tour : option json) (outs : list outcome)
  : list event * except (option json) :=
  if isMockPrompt prompt then
    ([], let* v := callMockProvider prompt pageContext in Ok (Some v))
  else
    let (evs, r) := callGemini prompt pageContext tour outs in
    (evs, let* response := r in route_tour (result_json response)).

End Mock.

(** [fillFormInputs(apiKey, prompt, tour)]: [callGemini] with no page
    context. *)
Definition fillFormInputs (prompt : string) (tour : option json) (outs : list outcome)
  : list event * except (option json) :=
  let (evs, r) := callGemini prompt None tour outs in
  (evs, let* response := r in route_inputs (result_json response)).

End Services.

(* ------------------------------------------------------------------------- *)
(** ** The promise-based coordinator's [GENERATE_TOUR] handler *)

Module Coordinator.
Import Json Gemini Background JsOps.

(** The coordinator's state: the browser, the events of the AI call made
    so far, and the transport outcomes the AI call will meet. *)
Record bg_state : Type := {
  browser : world;
  ai_events : list event;
  ai_outs : list outcome
}.

Definition N (A : Type) : Type := bg_state -> except A * bg_state.

Definition nret {A} (a : A) : N A := fun s => (Ok a, s).
Definition raise {A} (r : except A) : N A := fun s => (r, s).
Definition nbind {A B} (m : N A) (k : A -> N B) : N B :=
  fun s => match m s with
           | (Ok a, s') => k a s'
           | (Throw e, s') => (Throw e, s')
           end.
Definition ncatch {A} (m : N A) (h : js_error -> N A) : N A :=
  fun s => match m s with
           | (Ok a, s') => (Ok a, s')
           | (Throw e, s') => h e s'
           end.

Notation "x <~ m ;; k" := (nbind m (fun x => k)) (at level 61, m at next level, right associativity).

(** A browser call of the coordinator. *)
Definition lift {A} (m : M A) : N A :=
  fun s => let (r, w) := m (browser s) in
           (r, {| browser := w; ai_events := ai_events s; ai_outs := ai_outs s |}).

(** [getActiveTab()] given the ids of the tabs [chrome.tabs.query]
    returns ([None] for a tab without id). *)
Definition getActiveTab (tabs : list (option Z)) : except Z :=
  match tabs with
  | [] => Throw (Error "No active tab found or tab is invalid.")
  | id :: _ =>
      match id with
      | Some n => if n =? 0 then Throw (Error "No active tab found or tab is invalid.") else Ok n
      | None => Throw (Error "No active tab found or tab is invalid.")
      end
  end.

(** [getApiKey()] given the stored [geminiApiKey] value. *)
Definition getApiKey (stored : option json) : except (option json) :=
  if negb (truthy stored) then
    Throw (Error "No Gemini API key saved in extension storage. Please set it in the options.")
  else Ok stored.

(** [generateTour(apiKey, prompt, pageContext)] of the first
    [ai-service.js]: the array-returning [callGemini]. *)
Definition generateTour (prompt : option json) (pageContext : json) : N json :=
  fun s =>
    let (evs, r) := callGemini_v1 (template prompt) (Some pageContext) (ai_outs s) in
    (r, {| browser := browser s; ai_events := List.app (ai_events s) evs; ai_outs := [] |}).

(** [{type: REQUEST_PAGE_CONTEXT, prompt: message.prompt}]; an [undefined]
    prompt is dropped when the message is serialized. *)
Definition contextMsg (prompt : option json) : json :=
  JObj (("type", JStr "REQUEST_PAGE_CONTEXT")
          :: match prompt with Some p => [("prompt", p)] | None => [] end).

Definition renderMsg (result : json) : json :=
  JObj [("type", JStr "GEMINI_RESULT"); ("result", result)].

(** [pageContextResp?.pageContext || {}]. *)
Definition page_context_of (resp : option json) : except json :=
  let* pc := get_opt resp "pageContext" in
  Ok (match pc with
      | Some v => if truthy (Some v) then v else JObj []
      | None => JObj []
      end).

Definition ok_response : json := JObj [("ok", JBool true)].

Definition error_response (e : js_error) : json :=
  JObj [("ok", JBool false);
        ("error", JStr (if String.eqb (message_of e) EmptyString
                        then "An unknown error occurred during tour generation."
                        else message_of e))].

(** [handleGenerateTour(message, sendResponse)]: the value handed to
    [sendResponse]. *)
Definition handleGenerateTour (tabs : list (option Z)) (stored : option json) (prompt : option json)
  : N json :=
  ncatch
    (tabId <~ raise (getActiveTab tabs) ;;
     _ <~ raise (getApiKey stored) ;;
     pageContextResp <~ lift (sendMessageWithInjectionRetry tabId (contextMsg prompt)) ;;
     pageContext <~ raise (page_context_of pageContextResp) ;;
     apiResp <~ ncatch (generateTour prompt pageContext)
                  (fun err => raise (Throw (Error ("AI generation failed: " ++ error_string err)))) ;;
     _ <~ lift (sendMessageWithInjectionRetry tabId (renderMsg apiResp)) ;;
     nret ok_response)
    (fun error => nret (error_response error)).

(** Runs the handler from the given browser script, tabs, stored key and
    transport outcomes: the browser calls, the AI call's events and the
    response. *)
Definition run_handler (tabs : list (option Z)) (stored prompt : option json)
    (ss : list send_result) (is : list inject_result) (outs : list outcome)
  : list action * list event * except json :=
  let (r, s) := handleGenerateTour tabs stored prompt
                  {| browser := {| sends := ss; injects := is; log := [] |};
                     ai_events := []; ai_outs := outs |} in
  (rev (log (browser s)), ai_events s, r).

End Coordinator.

(* ------------------------------------------------------------------------- *)
(** ** The retry loop of [callGemini] in [background.js] *)

Module BackgroundGemini.
Import Json Gemini.

Definition maxAttempts : Z := 3.
Definition baseDelay : Z := 500.

Definition backoff (attempt : Z) : Z := baseDelay * 2 ^ (attempt - 1).

Definition returned_error (status : Z) (text : string) : js_error :=
  Error ("Generative Language API returned " ++ num_to_string status ++ ": " ++ text).

Definition unreachable_error : js_error := Error "Failed to call Generative Language API".

(** The [try] block of one attempt: a 2xx body is [resp.json()]. *)
Definition try_block (attempt : Z) (o : outcome) : list event * try_end json :=
  match o with
  | FetchReject e => ([], TThrow e)
  | FetchResponse status body =>
      if resp_ok status then
        match parse body with
        | Some v => ([], TReturn v)
        | None => ([], TThrow SyntaxError)
        end
      else if (500 <=? status) && (attempt <? maxAttempts) then
        ([EvSleep (backoff attempt)], TContinue)
      else ([], TThrow (returned_error status body))
  end.

Fixpoint attempts (payload : string) (fuel : nat) (attempt : Z) (outs : list outcome)
  : list event * except json :=
  match fuel with
  | O => ([], Throw unreachable_error)
  | S f =>
      if attempt <=? maxAttempts then
        let (o, outs') := next_outcome outs in
        let (evs, te) := try_block attempt o in
        let evs := EvFetch attempt payload :: evs in
        match te with
        | TReturn a => (evs, Ok a)
        | TContinue =>
            let (evs', r) := attempts payload f (attempt + 1) outs' in ((evs ++ evs')%list, r)
        | TThrow e =>
            if attempt <? maxAttempts then
              let (evs', r) := attempts payload f (attempt + 1) outs' in
              ((evs ++ EvSleep (backoff attempt) :: evs')%list, r)
            else (evs, Throw e)
        end
      else ([], Throw unreachable_error)
  end.

(** The [for] loop of [callGemini(apiKey, prompt, pageContext)], for the
    serialized request body [payload]. *)
Definition callGemini_loop (payload : string) (outs : list outcome) : list event * except json :=
  attempts payload (Z.to_nat maxAttempts) 1 outs.

End BackgroundGemini.

(* ------------------------------------------------------------------------- *)
(** ** The content script's message listeners *)

Module ContentHandlers.
Import Json Gemini Content JsOps.

(** The [GEMINI_RESULT] branch of [handleMessages], once [runDriverjs]
    has settled. *)
Definition gemini_result_reply (w : window_driver) (steps : option json) : json :=
  match steps with
  | Some (JArr ((_ :: _) as l)) =>
      match runDriverjs w l with
      | Ok _ => JObj [("ok", JBool true)]
      | Throw err =>
          JObj [("ok", JBool false);
                ("error", JStr ("Content script failed to render tour: " ++ Background.message_of err))]
      end
  | _ => JObj [("ok", JBool false); ("error", JStr "No tour steps found in Gemini response.")]
  end.

(** [handleMessages(message, sender, sendResponse)]: its return value and
    what it hands to [sendResponse], if anything. *)
Definition handleMessages (message : option json) (doc : document) (now : Z) (w : window_driver)
  : except (bool * option json) :=
  if negb (truthy message) then Ok (false, None) else
  let* ty := get message "type" in
  if negb (truthy ty) then Ok (false, None)
  else if js_eq_str ty "REQUEST_PAGE_CONTEXT" then
    Ok (false, Some (handle_request_page_context doc now))
  else if js_eq_str ty "GEMINI_RESULT" then
    let* steps := get message "result" in
    Ok (true, Some (gemini_result_reply w steps))
  else Ok (false, None).

(** The [GEMINI_RESULT] branch of the inline listener registered first:
    [message.result || []]. *)
Definition inline_gemini_result (w : window_driver) (message : json) : except json :=
  let* result := get (Some message) "result" in
  let steps := if truthy result then result else Some (JArr []) in
  Ok (match steps with
      | Some (JArr ((_ :: _) as l)) =>
          match runDriverjs w l with
          | Ok _ => JObj [("ok", JBool true)]
          | Throw err => JObj [("ok", JBool false); ("error", JStr (error_string err))]
          end
      | _ => JObj [("ok", JBool false); ("error", JStr "No tour steps found in Gemini response.")]
      end).

End ContentHandlers.

(* ------------------------------------------------------------------------- *)
(** ** Outcomes of one attempt, as the retry properties speak of them *)

Module RetrySpec.
Import Json Gemini.

(** The error an attempt of [callGemini] ends in when it is the last one,
    or [None] when it succeeds. *)
Definition attempt_error {A} (on_success : string -> except A) (o : outcome) : option js_error :=
  match o with
  | FetchReject e => Some e
  | FetchResponse status body =>
      if resp_ok status then
        match on_success body with
        | Ok _ => None
        | Throw e => Some e
        end
      else Some (api_error status body)
  end.

(** The same for the loop of [background.js], whose 2xx bodies go
    through [resp.json()]. *)
Definition bg_attempt_error (o : outcome) : option js_error :=
  match o with
  | FetchReject e => Some e
  | FetchResponse status body =>
      if resp_ok status then
        match parse body with
        | Some _ => None
        | None => Some SyntaxError
        end
      else Some (BackgroundGemini.returned_error status body)
  end.

End RetrySpec.

(* ------------------------------------------------------------------------- *)
(** ** Steps the content script can run *)

Module StepSpec.
Import Json.

(** A step [normalizeStep] accepts: every value but [null], whose
    [step.popover] access throws. *)
Definition not_null (s : json) : bool := match s with JNull => false | _ => true end.

End StepSpec.

(* ------------------------------------------------------------------------- *)
(** ** [JSON.parse] reads back [JSON.stringify] *)

Module JsonFacts.
Import Json Utils JsonWf.

Lemma json_ind' (P : json -> Prop)
  (HN : P JNull) (HB : forall b, P (JBool b)) (HZ : forall n, P (JNum n))
  (HS : forall s, P (JStr s))
  (HA : forall l, Forall P l -> P (JArr l))
  (HO : forall l, Forall (fun kv => P (snd kv)) l -> P (JObj l)) :
  forall v, P v.
Proof.
  fix IH 1. intros [| b | n | s | l | l].
  - exact HN.
  - apply HB.
  - apply HZ.
  - apply HS.
  - apply HA. induction l as [| x r IHr]; constructor; [apply IH | exact IHr].
  - apply HO. induction l as [| [k x] r IHr]; constructor; [apply IH | exact IHr].
Qed.

Lemma sapp_assoc (a b c : string) : (a ++ b) ++ c = a ++ (b ++ c).
Proof. induction a; simpl; congruence. Qed.

Lemma sapp_nil (a : string) : a ++ EmptyString = a.
Proof. induction a; simpl; congruence. Qed.

Lemma slength_app (a b : string) : String.length (a ++ b) = (String.length a + String.length b)%nat.
Proof. induction a; simpl; congruence. Qed.

(** The inner fixpoints of [stringify] and [need] are the functions above. *)
Lemma stringify_arr (l : list json) : stringify (JArr l) = "[" ++ elems_str l ++ "]".
Proof. reflexivity. Qed.

Lemma stringify_obj (l : list (string * json)) : stringify (JObj l) = "{" ++ mems_str l ++ "}".
Proof. reflexivity. Qed.

Lemma need_arr (l : list json) : need (JArr l) = S (elems_need l).
Proof. reflexivity. Qed.

Lemma need_obj (l : list (string * json)) : need (JObj l) = S (mems_need l).
Proof. reflexivity. Qed.

(** *** Characters *)

Lemma code_chr (m : nat) : (m < 256)%nat -> code (chr m) = m.
Proof. apply nat_ascii_embedding. Qed.

Lemma ascii_eqb_code (a c : ascii) : code a <> code c -> Ascii.eqb a c = false.
Proof. intros H. destruct (Ascii.eqb_spec a c); [subst; congruence | reflexivity]. Qed.

Lemma strip_prefix_neq (a : ascii) (p : string) (c : ascii) (r : string) :
  code a <> code c -> strip_prefix (String a p) (String c r) = None.
Proof. intros H. simpl. rewrite (ascii_eqb_code a c H). reflexivity. Qed.

Lemma strip_prefix_app (p r : string) : strip_prefix p (p ++ r) = Some r.
Proof. induction p as [| a p IH]; simpl; [reflexivity |]. rewrite Ascii.eqb_refl. exact IH. Qed.

Lemma digit_code (c : ascii) : is_digit c = true -> (48 <= code c <= 57)%nat.
Proof. unfold is_digit. rewrite andb_true_iff, !Nat.leb_le. tauto. Qed.

Lemma skip_ws_head (c : ascii) (t : string) : is_json_ws c = false -> skip_ws (String c t) = String c t.
Proof. intros H. simpl. rewrite H. reflexivity. Qed.

Lemma not_ws_code (c : ascii) :
  code c <> 32%nat -> code c <> 9%nat -> code c <> 10%nat -> code c <> 13%nat -> is_json_ws c = false.
Proof.
  intros. unfold is_json_ws.
  repeat rewrite (proj2 (Nat.eqb_neq _ _)) by assumption. reflexivity.
Qed.

Lemma eqb_false (m k : nat) : m <> k -> (m =? k)%nat = false.
Proof. apply Nat.eqb_neq. Qed.

(** A decimal digit character. *)
Lemma digit_char (d : Z) :
  0 <= d < 10 ->
  is_digit (chr (Z.to_nat (48 + d))) = true /\ digit_val (chr (Z.to_nat (48 + d))) = d
  /\ code (chr (Z.to_nat (48 + d))) = Z.to_nat (48 + d).
Proof.
  intros Hd. assert (Hc : code (chr (Z.to_nat (48 + d))) = Z.to_nat (48 + d)) by (apply code_chr; lia).
  unfold is_digit, digit_val. rewrite Hc. repeat split.
  - apply andb_true_iff; split; apply Nat.leb_le; lia.
  - rewrite Z2Nat.id by lia. lia.
Qed.

(** The character escapes of [JSON.stringify] read back one character. *)
Lemma parse_chars_escape_char (c : ascii) (x : string) :
  parse_chars (escape_char c ++ x) = cons_char c (parse_chars x).
Proof. destruct c as [[|] [|] [|] [|] [|] [|] [|] [|]]; reflexivity. Qed.

Lemma no_lf_escape_char (c : ascii) : no_lf (escape_char c) = true.
Proof. destruct c as [[|] [|] [|] [|] [|] [|] [|] [|]]; reflexivity. Qed.

Lemma no_lf_app (a b : string) : no_lf (a ++ b) = no_lf a && no_lf b.
Proof. induction a as [| c a IH]; simpl; [reflexivity |]. rewrite IH. apply andb_assoc. Qed.

Lemma parse_chars_escape (s r : string) :
  parse_chars (escape s ++ String dquote r) = Some (s, r).
Proof.
  induction s as [| c s IH]; [reflexivity |].
  simpl escape. rewrite sapp_assoc, parse_chars_escape_char, IH. reflexivity.
Qed.

Lemma no_lf_quote (s : string) : no_lf (quote s) = true.
Proof.
  unfold quote. simpl no_lf. rewrite no_lf_app.
  assert (no_lf (escape s) = true) as ->; [| reflexivity].
  induction s as [| c s IH]; [reflexivity |]. simpl. rewrite no_lf_app, no_lf_escape_char. exact IH.
Qed.

(** *** Decimal numbers *)

Lemma dec_aux_S (f : nat) (n : Z) (acc : string) :
  dec_aux (S f) n acc =
  if n / 10 =? 0 then String (chr (Z.to_nat (48 + n mod 10))) acc
  else dec_aux f (n / 10) (String (chr (Z.to_nat (48 + n mod 10))) acc).
Proof. reflexivity. Qed.

Lemma dec_aux_app (f : nat) (n : Z) (acc rest : string) :
  dec_aux f n acc ++ rest = dec_aux f n (acc ++ rest).
Proof.
  revert n acc. induction f as [| f IH]; intros n acc; [reflexivity |].
  simpl. destruct (n / 10 =? 0); [reflexivity |]. apply IH.
Qed.

Lemma read_digits_cons (c : ascii) (t : string) (a : Z) :
  read_digits (String c t) a = if is_digit c then read_digits t (a * 10 + digit_val c) else (a, String c t).
Proof. reflexivity. Qed.

Lemma dec_aux_read (f : nat) (n : Z) (acc : string) (a : Z) :
  0 < n -> n < 10 ^ Z.of_nat f ->
  exists k : nat, read_digits (dec_aux f n acc) a = read_digits acc (a * 10 ^ Z.of_nat k + n).
Proof.
  revert n acc. induction f as [| f IH]; intros n acc Hpos Hlt; [simpl in Hlt; lia |].
  rewrite Nat2Z.inj_succ, Z.pow_succ_r in Hlt by lia.
  pose proof (Z.mod_pos_bound n 10 ltac:(lia)) as Hm.
  destruct (digit_char (n mod 10) Hm) as [Hd [Hv _]].
  pose proof (Z.div_mod n 10 ltac:(lia)) as Hdm.
  rewrite dec_aux_S. destruct (Z.eqb_spec (n / 10) 0) as [H0 | H0].
  - exists 1%nat. rewrite read_digits_cons, Hd, Hv. f_equal. lia.
  - assert (Hq : 0 < n / 10) by (pose proof (Z.div_pos n 10); lia).
    assert (Hq' : n / 10 < 10 ^ Z.of_nat f) by (apply Z.div_lt_upper_bound; lia).
    destruct (IH (n / 10) (String (chr (Z.to_nat (48 + n mod 10))) acc) Hq Hq') as [k Hk]. exists (S k). rewrite Hk.
    rewrite read_digits_cons, Hd, Hv. f_equal.
    rewrite Nat2Z.inj_succ, Z.pow_succ_r by lia. lia.
Qed.

Lemma dec_aux_head (f : nat) (n : Z) (acc : string) :
  0 < n -> n < 10 ^ Z.of_nat f ->
  exists c t, dec_aux f n acc = String c t /\ is_digit c = true /\ code c <> 48%nat.
Proof.
  revert n acc. induction f as [| f IH]; intros n acc Hpos Hlt; [simpl in Hlt; lia |].
  rewrite Nat2Z.inj_succ, Z.pow_succ_r in Hlt by lia.
  pose proof (Z.mod_pos_bound n 10 ltac:(lia)) as Hm.
  destruct (digit_char (n mod 10) Hm) as [Hd [_ Hc]].
  pose proof (Z.div_mod n 10 ltac:(lia)) as Hdm.
  rewrite dec_aux_S. destruct (Z.eqb_spec (n / 10) 0) as [H0 | H0].
  - do 2 eexists. split; [reflexivity |]. split; [exact Hd |]. rewrite Hc. lia.
  - apply IH; [pose proof (Z.div_pos n 10); lia |]. apply Z.div_lt_upper_bound; lia.
Qed.

Lemma no_lf_dec_aux (f : nat) (n : Z) (acc : string) :
  no_lf acc = true -> no_lf (dec_aux f n acc) = true.
Proof.
  revert n acc. induction f as [| f IH]; intros n acc Hacc; [exact Hacc |].
  pose proof (Z.mod_pos_bound n 10 ltac:(lia)) as Hm.
  destruct (digit_char (n mod 10) Hm) as [_ [_ Hc]].
  assert (Hs : no_lf (String (chr (Z.to_nat (48 + n mod 10))) acc) = true).
  { cbn [no_lf]. rewrite Hc, eqb_false by lia. exact Hacc. }
  rewrite dec_aux_S. destruct (n / 10 =? 0); [exact Hs | apply IH, Hs].
Qed.

Lemma dec_pos_fuel (n : Z) : 0 < n -> n < 10 ^ Z.of_nat (Z.to_nat (Z.log2 n + 1)).
Proof.
  intros Hn. pose proof (Z.log2_nonneg n). rewrite Z2Nat.id by lia.
  destruct (Z.log2_spec n Hn) as [_ H2].
  eapply Z.lt_le_trans; [exact H2 |]. rewrite <- Z.add_1_r.
  apply Z.pow_le_mono_l. lia.
Qed.

Lemma read_digits_stop (r : string) (a : Z) : stop r = true -> read_digits r a = (a, r).
Proof.
  destruct r as [| c r]; [reflexivity |]. simpl. intros H.
  destruct (is_digit c) eqn:Hd; [| reflexivity].
  apply digit_code in Hd. rewrite !orb_true_iff, !Nat.eqb_eq in H. lia.
Qed.

Lemma number_end_stop (r : string) : stop r = true -> number_end_ok r = true.
Proof.
  destruct r as [| c r]; [reflexivity |]. simpl. intros H.
  rewrite !orb_true_iff, !Nat.eqb_eq in H.
  destruct (is_digit c) eqn:Hd; [apply digit_code in Hd; lia |].
  rewrite !eqb_false by lia. reflexivity.
Qed.

(** A positive number: a leading non-zero digit and its digits. *)
Lemma dec_pos_parse (n : Z) (rest : string) :
  0 < n -> stop rest = true ->
  exists c t, dec_pos n ++ rest = String c t /\ is_digit c = true /\ code c <> 48%nat
    /\ read_digits t (digit_val c) = (n, rest).
Proof.
  intros Hn Hs. unfold dec_pos. pose proof (dec_pos_fuel n Hn) as Hf.
  rewrite dec_aux_app. simpl append.
  destruct (dec_aux_head _ n rest Hn Hf) as [c [t [Ht [Hd H0]]]].
  destruct (dec_aux_read _ n rest 0 Hn Hf) as [k Hk].
  rewrite Ht, read_digits_cons, Hd, (read_digits_stop rest) in Hk by exact Hs.
  exists c, t. repeat split; try assumption.
Qed.

(** *** One step of [parse_value] on each kind of first character *)

Lemma parse_value_quote (n : nat) (t : string) :
  parse_value (S n) (String dquote t) =
  match parse_chars t with Some (u, r') => Some (JStr u, r') | None => None end.
Proof. reflexivity. Qed.

Lemma parse_value_lbracket (n : nat) (t : string) :
  parse_value (S n) (String "[" t) =
  match skip_ws t with
  | String d r' => if (code d =? 93)%nat then Some (JArr [], r') else parse_elems n t []
  | EmptyString => None
  end.
Proof. reflexivity. Qed.

Lemma parse_value_lbrace (n : nat) (t : string) :
  parse_value (S n) (String "{" t) =
  match skip_ws t with
  | String d r' => if (code d =? 125)%nat then Some (JObj [], r') else parse_members n t []
  | EmptyString => None
  end.
Proof. reflexivity. Qed.

Lemma parse_value_number (n : nat) (c : ascii) (t : string) :
  is_json_ws c = false -> code c <> 110%nat -> code c <> 116%nat -> code c <> 102%nat ->
  code c <> 34%nat -> code c <> 91%nat -> code c <> 123%nat ->
  parse_value (S n) (String c t) = parse_number (String c t).
Proof.
  intros Hws H1 H2 H3 H4 H5 H6. cbn [parse_value]. rewrite skip_ws_head by exact Hws.
  rewrite !strip_prefix_neq
    by (let E := fresh in intro E; first [apply H1; rewrite <- E; reflexivity | apply H2; rewrite <- E; reflexivity
                                         | apply H3; rewrite <- E; reflexivity]).
  rewrite !eqb_false by assumption. reflexivity.
Qed.

Lemma parse_elems_S (n : nat) (s : string) (acc : list json) :
  parse_elems (S n) s acc =
  match parse_value n s with
  | Some (v, r) =>
      match skip_ws r with
      | String c r' =>
          if (code c =? 44)%nat then parse_elems n r' (acc ++ [v])
          else if (code c =? 93)%nat then Some (JArr (acc ++ [v]), r')
          else None
      | EmptyString => None
      end
  | None => None
  end.
Proof. reflexivity. Qed.

Lemma parse_members_S (n : nat) (t : string) (acc : list (string * json)) :
  parse_members (S n) (String dquote t) acc =
  match parse_chars t with
  | Some (k, r1) =>
      match skip_ws r1 with
      | String c r2 =>
          if (code c =? 58)%nat then
            match parse_value n r2 with
            | Some (v, r3) =>
                match skip_ws r3 with
                | String d r4 =>
                    if (code d =? 44)%nat then parse_members n r4 (obj_set k v acc)
                    else if (code d =? 125)%nat then Some (JObj (obj_set k v acc), r4)
                    else None
                | EmptyString => None
                end
            | None => None
            end
          else None
      | EmptyString => None
      end
  | None => None
  end.
Proof. reflexivity. Qed.

Ltac head_char := do 2 eexists; split; [reflexivity | split; [reflexivity | cbn; discriminate]].

(** The first character of a serialised value. *)
Lemma stringify_head (v : json) :
  exists c t, stringify v = String c t /\ is_json_ws c = false /\ code c <> 93%nat.
Proof.
  destruct v as [| [|] | z | s | l | l]; try head_char.
  cbn [stringify]. unfold num_to_string.
  destruct (Z.eqb_spec z 0); [head_char |].
  destruct (Z.ltb_spec z 0); [head_char |].
  destruct (dec_pos_parse z EmptyString ltac:(lia) eq_refl) as [c [t [Ht [Hd _]]]].
  rewrite sapp_nil in Ht. exists c, t. apply digit_code in Hd.
  split; [exact Ht | split; [apply not_ws_code; lia | lia]].
Qed.

(** *** Numbers and objects *)

Lemma parse_number_digits (c : ascii) (t : string) (m : Z) (r : string) :
  is_digit c = true -> code c <> 48%nat -> read_digits t (digit_val c) = (m, r) -> stop r = true ->
  parse_number (String c t) = Some (JNum m, r)
  /\ parse_number (String "-" (String c t)) = Some (JNum (- m), r).
Proof.
  intros Hd H0 Hr Hs. pose proof (digit_code c Hd) as Hc. split.
  - unfold parse_number. rewrite (eqb_false (code c) 45) by lia. cbv beta iota zeta.
    unfold parse_unsigned. rewrite (eqb_false (code c) 48), Hd, Hr, number_end_stop by assumption.
    reflexivity.
  - unfold parse_number. change (code "-"%char =? 45)%nat with true. cbv beta iota zeta.
    unfold parse_unsigned. rewrite (eqb_false (code c) 48), Hd, Hr, number_end_stop by assumption.
    reflexivity.
Qed.

Lemma obj_set_fresh (k : string) (v : json) (acc : list (string * json)) :
  existsb (String.eqb k) (map fst acc) = false -> obj_set k v acc = List.app acc [(k, v)].
Proof.
  induction acc as [| [k' v'] acc IH]; simpl; intros H; [reflexivity |].
  apply orb_false_iff in H as [H1 H2]. rewrite H1, IH by exact H2. reflexivity.
Qed.

Lemma keys_nodup_fresh (l1 l2 : list string) (k : string) :
  keys_nodup (List.app l1 (k :: l2)) = true -> existsb (String.eqb k) l1 = false.
Proof.
  induction l1 as [| k' l1 IH]; simpl; intros H; [reflexivity |].
  apply andb_true_iff in H as [H1 H2]. rewrite IH by exact H2.
  destruct (String.eqb_spec k k') as [<- | _]; [| reflexivity].
  exfalso. apply negb_true_iff in H1.
  assert (existsb (String.eqb k) (List.app l1 (k :: l2)) = true) as Hin.
  { apply existsb_exists. exists k. split; [apply in_or_app; right; left; reflexivity | apply String.eqb_refl]. }
  congruence.
Qed.

(** *** Arrays *)

Lemma parse_elems_ok (l : list json) :
  Forall (fun v => json_wf v = true -> forall n rest, (need v <= n)%nat -> stop rest = true ->
                   parse_value n (stringify v ++ rest) = Some (v, rest)) l ->
  forall acc m rest, l <> [] -> forallb json_wf l = true -> (elems_need l <= m)%nat ->
  parse_elems m (elems_str l ++ String "]" rest) acc = Some (JArr (List.app acc l), rest).
Proof.
  induction 1 as [| x r Hx Hr IH]; intros acc m rest Hne Hwf Hm; [congruence |].
  destruct m as [| m]; [cbn [elems_need] in Hm; lia |].
  cbn [forallb] in Hwf. apply andb_true_iff in Hwf as [Hwx Hwr].
  cbn [elems_need] in Hm.
  rewrite parse_elems_S. cbn [elems_str]. rewrite sapp_assoc.
  destruct r as [| y r'].
  - rewrite Hx by (reflexivity || lia || assumption). reflexivity.
  - rewrite sapp_assoc. cbn [append].
    rewrite Hx by (reflexivity || lia || assumption).
    rewrite skip_ws_head by reflexivity. cbn -[elems_str parse_elems].
    rewrite IH by (congruence || assumption || lia). rewrite <- app_assoc. reflexivity.
Qed.

(** *** Objects *)

Lemma parse_members_ok (l : list (string * json)) :
  Forall (fun kv => json_wf (snd kv) = true -> forall n rest, (need (snd kv) <= n)%nat ->
                    stop rest = true ->
                    parse_value n (stringify (snd kv) ++ rest) = Some (snd kv, rest)) l ->
  forall acc m rest, l <> [] -> forallb (fun '(_, x) => json_wf x) l = true ->
  keys_nodup (map fst (List.app acc l)) = true -> (mems_need l <= m)%nat ->
  parse_members m (mems_str l ++ String "}" rest) acc = Some (JObj (List.app acc l), rest).
Proof.
  induction 1 as [| [k x] r Hx Hr IH]; intros acc m rest Hne Hwf Hkeys Hm; [congruence |].
  cbn [snd] in Hx. destruct m as [| m]; [cbn [mems_need] in Hm; lia |].
  cbn [forallb] in Hwf. apply andb_true_iff in Hwf as [Hwx Hwr].
  cbn [mems_need] in Hm.
  assert (Hfresh : obj_set k x acc = List.app acc [(k, x)]).
  { apply obj_set_fresh. rewrite map_app in Hkeys. exact (keys_nodup_fresh _ _ _ Hkeys). }
  cbn [mems_str]. unfold quote.
  rewrite !sapp_assoc. cbn [append]. rewrite !sapp_assoc. cbn [append].
  rewrite parse_members_S, parse_chars_escape, skip_ws_head by reflexivity.
  cbn -[parse_value stringify mems_str parse_members obj_set].
  destruct r as [| [ky y] r'].
  - rewrite Hx by (reflexivity || lia || assumption). cbn -[obj_set]. rewrite Hfresh. reflexivity.
  - cbn [append].
    rewrite Hx by (reflexivity || lia || assumption).
    remember (mems_str ((ky, y) :: r')) as M eqn:HM. simpl. subst M.
    rewrite Hfresh, IH by (congruence || assumption || lia || (rewrite <- app_assoc; exact Hkeys)).
    rewrite <- app_assoc. reflexivity.
Qed.

(** *** The round trip *)

Lemma parse_stringify (v : json) :
  json_wf v = true -> forall n rest, (need v <= n)%nat -> stop rest = true ->
  parse_value n (stringify v ++ rest) = Some (v, rest).
Proof.
  induction v as [| b | z | s | l IHl | l IHl] using json_ind'; intros Hwf n rest Hn Hs;
    (destruct n as [| n]; [cbn [need] in Hn; lia |]).
  - reflexivity.
  - destruct b; reflexivity.
  - cbn [stringify]. unfold num_to_string.
    destruct (Z.eqb_spec z 0) as [-> | Hz0].
    + simpl. rewrite number_end_stop by exact Hs. reflexivity.
    + destruct (Z.ltb_spec z 0) as [Hneg | Hpos].
      * destruct (dec_pos_parse (- z) rest ltac:(lia) Hs) as [c [t [Ht [Hd [H0 Hr]]]]].
        cbn [append]. rewrite Ht.
        rewrite parse_value_number by (reflexivity || discriminate).
        rewrite (proj2 (parse_number_digits c t (- z) rest Hd H0 Hr Hs)), Z.opp_involutive.
        reflexivity.
      * destruct (dec_pos_parse z rest ltac:(lia) Hs) as [c [t [Ht [Hd [H0 Hr]]]]].
        rewrite Ht. pose proof (digit_code c Hd).
        rewrite parse_value_number by (apply not_ws_code; lia) || lia.
        rewrite (proj1 (parse_number_digits c t z rest Hd H0 Hr Hs)). reflexivity.
  - cbn [stringify]. unfold quote. cbn [append]. rewrite sapp_assoc. cbn [append].
    rewrite parse_value_quote, parse_chars_escape. reflexivity.
  - rewrite stringify_arr. cbn [append]. rewrite sapp_assoc. cbn [append].
    rewrite parse_value_lbracket. rewrite need_arr in Hn.
    destruct l as [| x r]; [reflexivity |].
    destruct (stringify_head x) as [c [t [Ht [Hws H93]]]].
    assert (Hsplit : elems_str (x :: r) ++ String "]" rest
                     = String c (t ++ ((match r with [] => EmptyString | _ => "," ++ elems_str r end)
                                       ++ String "]" rest))).
    { cbn [elems_str]. rewrite Ht, sapp_assoc. reflexivity. }
    rewrite Hsplit at 1. rewrite skip_ws_head by exact Hws. rewrite eqb_false by exact H93.
    cbv iota beta. try rewrite <- Hsplit. apply parse_elems_ok; [exact IHl | congruence | exact Hwf | lia].
  - rewrite stringify_obj. cbn [append]. rewrite sapp_assoc. cbn [append].
    rewrite parse_value_lbrace. rewrite need_obj in Hn.
    cbn [json_wf] in Hwf. apply andb_true_iff in Hwf as [Hkeys Hwf].
    destruct l as [| [k x] r]; [reflexivity |].
    assert (Hsplit : mems_str ((k, x) :: r) ++ String "}" rest
                     = String dquote (((escape k ++ String dquote EmptyString) ++ (":" ++ (stringify x
                          ++ match r with [] => EmptyString | _ => "," ++ mems_str r end))) ++ String "}" rest)).
    { reflexivity. }
    rewrite Hsplit at 1. rewrite skip_ws_head by reflexivity.
    change (code dquote =? 125)%nat with false. cbv iota beta.
    try rewrite <- Hsplit. apply parse_members_ok; [exact IHl | congruence | exact Hwf | exact Hkeys | lia].
Qed.

(** *** The length of the text bounds the nesting depth *)

Lemma elems_need_length (l : list json) :
  Forall (fun v => (need v <= String.length (stringify v))%nat) l ->
  (elems_need l <= S (String.length (elems_str l)))%nat.
Proof.
  induction 1 as [| x r Hx Hr IH]; [cbn; lia |].
  cbn [elems_need elems_str]. rewrite slength_app.
  destruct r as [| y r']; cbn [String.length append elems_need mems_need] in *; [lia |].
  lia.
Qed.

Lemma mems_need_length (l : list (string * json)) :
  Forall (fun kv => (need (snd kv) <= String.length (stringify (snd kv)))%nat) l ->
  (mems_need l <= S (String.length (mems_str l)))%nat.
Proof.
  induction 1 as [| [k x] r Hx Hr IH]; [cbn; lia |].
  cbn [snd] in Hx. cbn [mems_need mems_str]. rewrite !slength_app.
  destruct r as [| y r']; cbn [String.length append elems_need mems_need] in *; [lia |].
  lia.
Qed.

Lemma need_length (v : json) : (need v <= String.length (stringify v))%nat.
Proof.
  induction v as [| b | z | s | l IHl | l IHl] using json_ind'.
  - cbn. lia.
  - destruct b; cbn; lia.
  - destruct (stringify_head (JNum z)) as [c [t [Ht _]]]. rewrite Ht. cbn. lia.
  - cbn. lia.
  - rewrite need_arr, stringify_arr. cbn [append String.length]. rewrite slength_app.
    pose proof (elems_need_length l IHl). cbn. lia.
  - rewrite need_obj, stringify_obj. cbn [append String.length]. rewrite slength_app.
    pose proof (mems_need_length l IHl). cbn. lia.
Qed.

(** *** A serialised value has no line feed, so no fenced block *)

Lemma no_lf_stringify (v : json) : no_lf (stringify v) = true.
Proof.
  induction v as [| b | z | s | l IHl | l IHl] using json_ind'.
  - reflexivity.
  - destruct b; reflexivity.
  - cbn [stringify]. unfold num_to_string.
    destruct (z =? 0); [reflexivity |]. unfold dec_pos.
    destruct (z <? 0); [cbn [no_lf] |]; apply no_lf_dec_aux; reflexivity.
  - apply no_lf_quote.
  - rewrite stringify_arr, !no_lf_app. cbn [no_lf]. rewrite andb_true_r. cbn.
    induction IHl as [| x r Hx Hr IH]; [reflexivity |].
    cbn [elems_str]. rewrite no_lf_app, Hx.
    destruct r; [reflexivity |]. cbn. exact IH.
  - rewrite stringify_obj, !no_lf_app. cbn [no_lf]. rewrite andb_true_r. cbn.
    induction IHl as [| [k x] r Hx Hr IH]; [reflexivity |].
    cbn [snd] in Hx. cbn [mems_str]. rewrite !no_lf_app, Hx, no_lf_quote.
    destruct r; [reflexivity |]. cbn. exact IH.
Qed.

Lemma strip_prefix_some (p s t : string) : strip_prefix p s = Some t -> s = p ++ t.
Proof.
  revert s. induction p as [| a p IH]; intros s H; [cbn in H; injection H as ->; reflexivity |].
  destruct s as [| b s]; [discriminate |]. cbn in H.
  destruct (Ascii.eqb_spec a b) as [<- |]; [| discriminate].
  cbn. f_equal. apply IH, H.
Qed.

Lemma fence_match_cons (c : ascii) (r : string) :
  fence_match (String c r) = match match_at (String c r) with Some g => Some g | None => fence_match r end.
Proof. reflexivity. Qed.

Lemma fence_match_no_lf (s : string) : no_lf s = true -> fence_match s = None.
Proof.
  induction s as [| c r IH]; intros H; [reflexivity |].
  assert (Hm : match_at (String c r) = None).
  { unfold match_at. destruct (strip_prefix fence_open (String c r)) as [t |] eqn:E; [| reflexivity].
    apply strip_prefix_some in E. rewrite E, no_lf_app in H. discriminate H. }
  rewrite fence_match_cons, Hm. apply IH. cbn [no_lf] in H. apply andb_true_iff in H. tauto.
Qed.

(** *** Text that is not JSON *)

(** [parseJson] gives [null] when neither a non-empty fenced block nor
    the whole text parses. *)
Lemma parseJson_malformed (t : string) :
  parse t = None ->
  (forall g, fence_match t = Some g -> g <> EmptyString -> parse g = None) ->
  parseJson (Some (JStr t)) = JNull.
Proof.
  intros Ht Hg. unfold parseJson, parseJson_run, parse_or_null.
  destruct (fence_match t) as [g |] eqn:E.
  - destruct (String.eqb_spec g EmptyString) as [-> | Hne]; cbn [negb snd].
    + rewrite Ht. reflexivity.
    + rewrite (Hg g eq_refl Hne). reflexivity.
  - rewrite Ht. reflexivity.
Qed.

End JsonFacts.








(* ------------------------------------------------------------------------- *)
(** ** Facts on the gateway *)

Module GatewayFacts.
Import Json Utils Gemini GatewaySpec.

Lemma member_field (v : json) (k : string) : v <> JNull -> member v k = Ok (field v k).
Proof.
  intros Hv. unfold field. destruct v; try congruence; cbn [member]; try reflexivity;
    destruct (String.eqb k "length"); try reflexivity; destruct (array_index k); reflexivity.
Qed.

Lemma get_truthy (v : option json) (k : string) : truthy v = true -> get v k = Ok (field_opt v k).
Proof.
  intros Hv. destruct v as [v |]; [| discriminate].
  apply member_field. intros ->. discriminate.
Qed.

Lemma buildOutputInstruction_ok (hasPageContext : bool) (tour : option json) :
  exists t, buildOutputInstruction hasPageContext tour = Ok t.
Proof.
  unfold buildOutputInstruction.
  destruct (truthy tour) eqn:Ht; [rewrite !get_truthy by exact Ht |]; cbn [bind]; eexists; reflexivity.
Qed.

(** The prompt of [callGemini] is always built. *)
Lemma prompt_text_ok (userPrompt : string) (pageContext tour : option json) :
  exists t, prompt_text userPrompt pageContext tour = Ok t.
Proof.
  unfold prompt_text.
  replace (buildContextPrompt (Some (JStr EmptyString))) with (@Ok string EmptyString) by reflexivity.
  cbn [bind].
  destruct (buildOutputInstruction_ok
              (truthy (Some (JStr EmptyString))
               && (0 <? List.length (object_keys_opt (Some (JStr EmptyString))))%nat) tour) as [oi Hoi].
  rewrite Hoi. cbn [bind].
  destruct (truthy tour) eqn:Ht; [rewrite !get_truthy by exact Ht |]; cbn [bind]; eexists; reflexivity.
Qed.

Lemma fetches_app (l1 l2 : list event) : fetches (l1 ++ l2)%list = (fetches l1 + fetches l2)%nat.
Proof. unfold fetches. rewrite filter_app, length_app. reflexivity. Qed.

Lemma try_block_fetches {A} (on_success : string -> except A) (a : Z) (o : outcome) :
  fetches (fst (try_block on_success a o)) = 0%nat.
Proof.
  destruct o as [e | st b]; [reflexivity |]. cbn [try_block].
  destruct (resp_ok st); [destruct (on_success b); reflexivity |].
  destruct ((500 <=? st) && (a <? MAX_RETRIES)); reflexivity.
Qed.

(** Each round of the loop makes one request. *)
Lemma attempts_fetches {A} (on_success : string -> except A) (payload : string) (fuel : nat) :
  forall a outs, (fetches (fst (attempts on_success payload fuel a outs)) <= fuel)%nat.
Proof.
  induction fuel as [| f IH]; intros a outs; [cbn; lia |].
  cbn [attempts]. destruct (a <=? MAX_RETRIES); [| cbn; lia].
  destruct (next_outcome outs) as [o outs'].
  pose proof (try_block_fetches on_success a o) as H0.
  destruct (try_block on_success a o) as [evs te]. cbn [fst] in H0.
  destruct te as [x | | e].
  - cbn [fst]. change (EvFetch a payload :: evs) with ([EvFetch a payload] ++ evs)%list.
    rewrite fetches_app, H0. cbn. lia.
  - specialize (IH (a + 1) outs').
    destruct (attempts on_success payload f (a + 1) outs') as [evs' r]. cbn [fst] in *.
    change (EvFetch a payload :: evs) with ([EvFetch a payload] ++ evs)%list.
    rewrite !fetches_app, H0. cbn. lia.
  - destruct (a <? MAX_RETRIES).
    + specialize (IH (a + 1) outs').
      destruct (attempts on_success payload f (a + 1) outs') as [evs' r]. cbn [fst] in *.
      change (EvFetch a payload :: evs) with ([EvFetch a payload] ++ evs)%list.
      change (EvSleep (delay a) :: evs') with ([EvSleep (delay a)] ++ evs')%list.
      rewrite !fetches_app, H0. cbn. lia.
    + cbn [fst]. change (EvFetch a payload :: evs) with ([EvFetch a payload] ++ evs)%list.
      rewrite fetches_app, H0. cbn. lia.
Qed.

(** A failed attempt before the last one (a rejected [fetch] or a response
    that is not 2xx) is followed by a sleep of [delay a] and the next
    attempt. *)
Lemma attempts_failed_retry {A} (on_success : string -> except A) (payload : string)
    (a : Z) (o : outcome) (outs : list outcome) :
  1 <= a < MAX_RETRIES ->
  (forall st b, o = FetchResponse st b -> resp_ok st = false) ->
  attempts_from on_success payload a (o :: outs) =
  (EvFetch a payload :: EvSleep (delay a) :: fst (attempts_from on_success payload (a + 1) outs),
   snd (attempts_from on_success payload (a + 1) outs)).
Proof.
  intros Ha Hno. unfold attempts_from.
  replace (Z.to_nat (MAX_RETRIES - a + 1)) with (S (Z.to_nat (MAX_RETRIES - (a + 1) + 1)))
    by (unfold MAX_RETRIES in *; lia).
  cbn [attempts next_outcome].
  replace (a <=? MAX_RETRIES) with true by (symmetry; apply Z.leb_le; lia).
  assert (Hlt : (a <? MAX_RETRIES) = true) by (apply Z.ltb_lt; lia).
  destruct o as [e | st b].
  - cbn [try_block]. rewrite Hlt.
    destruct (attempts on_success payload (Z.to_nat (MAX_RETRIES - (a + 1) + 1)) (a + 1) outs).
    reflexivity.
  - cbn [try_block]. rewrite (Hno st b eq_refl).
    destruct (500 <=? st) eqn:H5; cbn [andb]; rewrite Hlt;
    destruct (attempts on_success payload (Z.to_nat (MAX_RETRIES - (a + 1) + 1)) (a + 1) outs);
    reflexivity.
Qed.

(** Every attempt of the loop starts with its request. *)
Lemma attempts_from_head {A} (on_success : string -> except A) (payload : string)
    (a : Z) (outs : list outcome) :
  1 <= a <= MAX_RETRIES ->
  exists evs, fst (attempts_from on_success payload a outs) = EvFetch a payload :: evs.
Proof.
  intros Ha. unfold attempts_from.
  replace (Z.to_nat (MAX_RETRIES - a + 1)) with (S (Z.to_nat (MAX_RETRIES - (a + 1) + 1)))
    by (unfold MAX_RETRIES in *; lia).
  cbn [attempts].
  replace (a <=? MAX_RETRIES) with true by (symmetry; apply Z.leb_le; lia).
  destruct (next_outcome outs) as [o outs'].
  destruct (try_block on_success a o) as [evs te].
  destruct te as [x | | e].
  - eexists; reflexivity.
  - destruct (attempts _ _ _ (a + 1) outs'). eexists; reflexivity.
  - destruct (a <? MAX_RETRIES); [destruct (attempts _ _ _ (a + 1) outs') |]; eexists; reflexivity.
Qed.

(** A 2xx reply at the last attempt ends the loop with its result. *)
Lemma attempts_last_ok {A} (on_success : string -> except A) (payload : string)
    (st : Z) (b : string) (outs : list outcome) (m : A) :
  resp_ok st = true -> on_success b = Ok m ->
  attempts_from on_success payload MAX_RETRIES (FetchResponse st b :: outs) = ([EvFetch MAX_RETRIES payload], Ok m).
Proof.
  intros Hst Hm. unfold attempts_from.
  change (Z.to_nat (MAX_RETRIES - MAX_RETRIES + 1)) with 1%nat.
  cbn [attempts next_outcome try_block]. rewrite Hst, Hm. reflexivity.
Qed.

(** A falsy value has only falsy fields. *)
Lemma truthy_field_false (v : option json) (k : string) :
  truthy v = false -> truthy (field_opt v k) = false.
Proof.
  intros H. destruct v as [[| b | n | s | l | l] |]; cbn in H; try discriminate; try reflexivity.
  apply negb_false_iff in H. apply String.eqb_eq in H. subst s. unfold field_opt, field, member.
  destruct (String.eqb k "length"); [reflexivity |].
  destruct (array_index k) as [i |]; [destruct i; reflexivity | reflexivity].
Qed.

End GatewayFacts.

(* ------------------------------------------------------------------------- *)
(** ** Facts on the content script *)

Module ContentFacts.
Import Json Gemini GatewaySpec GatewayFacts Content.

(** A step that is not [null] normalises without throwing; with no
    truthy [xpath], [element] or [selector] its element is [null]. *)
Lemma normalize_step_ok (s : json) :
  s <> JNull ->
  exists n, normalize_step s = Ok n
    /\ (truthy (field s "xpath") = false -> truthy (field s "element") = false ->
        truthy (field s "selector") = false -> ns_element n = LNull).
Proof.
  intros Hs.
  assert (G : forall k, get (Some s) k = Ok (field s k)) by (intros k; apply member_field, Hs).
  unfold normalize_step. rewrite !G. cbn [bind].
  destruct (truthy (field s "xpath")) eqn:Ex; cbn [bind].
  - destruct (truthy (field s "popover")); cbn [bind]; eexists; split; [reflexivity | | reflexivity |];
      intros; congruence.
  - destruct (truthy (field s "element")) eqn:Ee; cbn [bind].
    + destruct (truthy (field s "popover")); cbn [bind]; eexists; split; [reflexivity | | reflexivity |];
        intros; congruence.
    + destruct (truthy (field s "selector")) eqn:Esel; cbn [bind];
        destruct (truthy (field s "popover")); cbn [bind]; eexists; split; try reflexivity;
        intros; try congruence.
Qed.

Lemma normalizeDriverSteps_ok (steps : list json) :
  Forall (fun s => s <> JNull) steps ->
  exists ns, Forall2 (fun s n => normalize_step s = Ok n) steps ns
             /\ normalizeDriverSteps steps = Ok ns.
Proof.
  induction 1 as [| s r Hs _ [ns [Hf Hn]]].
  - exists []. split; [constructor | reflexivity].
  - destruct (normalize_step_ok s Hs) as [n [Hn1 _]].
    exists (n :: ns). split; [constructor; assumption |].
    cbn [normalizeDriverSteps]. rewrite Hn1. cbn [bind]. rewrite Hn. reflexivity.
Qed.

End ContentFacts.

(* ------------------------------------------------------------------------- *)
(** ** Helper facts for the further properties *)

Module ExtraFacts.
Import Json Utils Gemini GatewaySpec JsonWf JsonFacts GatewayFacts RetrySpec.
Import Content ContentFacts ContentHandlers JsOps StepSpec.

Module BG := BackgroundGemini.

Ltac close_reply :=
  do 2 eexists; split; [reflexivity |]; split; [reflexivity |]; split; reflexivity.

Lemma retries_app (l1 l2 : list event) : retries (l1 ++ l2)%list = (retries l1 + retries l2)%nat.
Proof. unfold retries. rewrite filter_app, length_app. reflexivity. Qed.

Lemma try_block_shape {A} (on_success : string -> except A) (a : Z) (o : outcome) :
  (fst (try_block on_success a o) = [] /\ snd (try_block on_success a o) <> TContinue)
  \/ (fst (try_block on_success a o) = [EvSleep (delay a)] /\ snd (try_block on_success a o) = TContinue
      /\ a < MAX_RETRIES).
Proof.
  destruct o as [e | st b]; [left; split; [reflexivity | discriminate] |]. cbn [try_block].
  destruct (resp_ok st); [destruct (on_success b); left; split; (reflexivity || discriminate) |].
  destruct ((500 <=? st) && (a <? MAX_RETRIES)) eqn:E.
  - right. apply andb_true_iff in E. destruct E as [_ E]. apply Z.ltb_lt in E. auto.
  - left. split; [reflexivity | discriminate].
Qed.

Lemma attempts_sleeps {A} (on_success : string -> except A) (payload : string) (n : nat) :
  forall a outs, 1 <= a -> Z.of_nat n = MAX_RETRIES - a + 1 -> (1 <= n)%nat ->
  (retries (fst (attempts on_success payload n a outs)) + 1
   = fetches (fst (attempts on_success payload n a outs)))%nat.
Proof.
  induction n as [| f IH]; intros a outs Ha Hn Hn1; [lia |].
  cbn [attempts]. replace (a <=? MAX_RETRIES) with true by (symmetry; apply Z.leb_le; unfold MAX_RETRIES in *; lia).
  destruct (next_outcome outs) as [o outs'].
  pose proof (try_block_shape on_success a o) as Hs.
  destruct (try_block on_success a o) as [evs te]. cbn [fst snd] in Hs.
  destruct Hs as [[-> Hte] | [-> [-> Hlt]]].
  - destruct te as [x | | e]; [reflexivity | congruence |].
    destruct (a <? MAX_RETRIES) eqn:Hlt; [| reflexivity].
    apply Z.ltb_lt in Hlt.
    specialize (IH (a + 1) outs' ltac:(lia) ltac:(lia) ltac:(unfold MAX_RETRIES in *; lia)).
    destruct (attempts on_success payload f (a + 1) outs') as [evs' r]. cbn [fst] in *.
    cbn -[retries fetches]. unfold retries, fetches in *. cbn. lia.
  - specialize (IH (a + 1) outs' ltac:(lia) ltac:(lia) ltac:(unfold MAX_RETRIES in *; lia)).
    destruct (attempts on_success payload f (a + 1) outs') as [evs' r]. cbn [fst] in *.
    unfold retries, fetches in *. cbn. lia.
Qed.

Lemma attempts_from_sleeps {A} (on_success : string -> except A) (payload : string) (outs : list outcome) :
  (retries (fst (attempts_from on_success payload 1 outs)) + 1
   = fetches (fst (attempts_from on_success payload 1 outs)))%nat
  /\ (fetches (fst (attempts_from on_success payload 1 outs)) <= 3)%nat.
Proof.
  split.
  - apply attempts_sleeps; [lia | reflexivity | cbn; lia].
  - apply attempts_fetches.
Qed.

Lemma attempt_error_retry {A} (on_success : string -> except A) (payload : string)
    (a : Z) (o : outcome) (outs : list outcome) (e : js_error) :
  1 <= a < MAX_RETRIES -> attempt_error on_success o = Some e ->
  attempts_from on_success payload a (o :: outs) =
  (EvFetch a payload :: EvSleep (delay a) :: fst (attempts_from on_success payload (a + 1) outs),
   snd (attempts_from on_success payload (a + 1) outs)).
Proof.
  intros Ha He. destruct o as [e' | st b].
  - apply attempts_failed_retry; [exact Ha | discriminate].
  - destruct (resp_ok st) eqn:Hok.
    + cbn [attempt_error] in He. rewrite Hok in He.
      destruct (on_success b) as [x | e'] eqn:Hb; [discriminate |].
      unfold attempts_from.
      replace (Z.to_nat (MAX_RETRIES - a + 1)) with (S (Z.to_nat (MAX_RETRIES - (a + 1) + 1)))
        by (unfold MAX_RETRIES in *; lia).
      cbn [attempts next_outcome try_block].
      replace (a <=? MAX_RETRIES) with true by (symmetry; apply Z.leb_le; lia).
      rewrite Hok, Hb. replace (a <? MAX_RETRIES) with true by (symmetry; apply Z.ltb_lt; lia).
      destruct (attempts on_success payload (Z.to_nat (MAX_RETRIES - (a + 1) + 1)) (a + 1) outs).
      reflexivity.
    + apply attempts_failed_retry; [exact Ha |]. intros st' b' [= <- <-]. exact Hok.
Qed.

Lemma attempt_error_last {A} (on_success : string -> except A) (payload : string)
    (o : outcome) (outs : list outcome) (e : js_error) :
  attempt_error on_success o = Some e ->
  attempts_from on_success payload MAX_RETRIES (o :: outs) = ([EvFetch MAX_RETRIES payload], Throw e).
Proof.
  intros He. unfold attempts_from. change (Z.to_nat (MAX_RETRIES - MAX_RETRIES + 1)) with 1%nat.
  destruct o as [e' | st b]; cbn [attempt_error] in He.
  - injection He as ->. reflexivity.
  - cbn [attempts next_outcome try_block]. destruct (resp_ok st).
    + destruct (on_success b); [discriminate | injection He as ->; reflexivity].
    + injection He as <-. rewrite andb_false_r. reflexivity.
Qed.

Lemma bg_try_block_shape (a : Z) (o : outcome) :
  (fst (BG.try_block a o) = [] /\ snd (BG.try_block a o) <> TContinue)
  \/ (fst (BG.try_block a o) = [EvSleep (BG.backoff a)] /\ snd (BG.try_block a o) = TContinue
      /\ a < BG.maxAttempts).
Proof.
  destruct o as [e | st b]; [left; split; [reflexivity | discriminate] |]. cbn [BG.try_block].
  destruct (resp_ok st); [destruct (parse b); left; split; (reflexivity || discriminate) |].
  destruct ((500 <=? st) && (a <? BG.maxAttempts)) eqn:E.
  - right. apply andb_true_iff in E. destruct E as [_ E]. apply Z.ltb_lt in E. auto.
  - left. split; [reflexivity | discriminate].
Qed.

Lemma bg_attempts_sleeps (payload : string) (n : nat) :
  forall a outs, 1 <= a -> Z.of_nat n = BG.maxAttempts - a + 1 -> (1 <= n)%nat ->
  (retries (fst (BG.attempts payload n a outs)) + 1 = fetches (fst (BG.attempts payload n a outs)))%nat
  /\ (fetches (fst (BG.attempts payload n a outs)) <= n)%nat.
Proof.
  induction n as [| f IH]; intros a outs Ha Hn Hn1; [lia |].
  cbn [BG.attempts]. replace (a <=? BG.maxAttempts) with true
    by (symmetry; apply Z.leb_le; unfold BG.maxAttempts in *; lia).
  destruct (next_outcome outs) as [o outs'].
  pose proof (bg_try_block_shape a o) as Hs.
  destruct (BG.try_block a o) as [evs te]. cbn [fst snd] in Hs.
  destruct Hs as [[-> Hte] | [-> [-> Hlt]]].
  - destruct te as [x | | e]; [cbn; lia | congruence |].
    destruct (a <? BG.maxAttempts) eqn:Hlt; [| cbn; lia].
    apply Z.ltb_lt in Hlt.
    specialize (IH (a + 1) outs' ltac:(lia) ltac:(lia) ltac:(unfold BG.maxAttempts in *; lia)).
    destruct (BG.attempts payload f (a + 1) outs') as [evs' r]. cbn [fst] in *.
    unfold retries, fetches in *. cbn. lia.
  - specialize (IH (a + 1) outs' ltac:(lia) ltac:(lia) ltac:(unfold BG.maxAttempts in *; lia)).
    destruct (BG.attempts payload f (a + 1) outs') as [evs' r]. cbn [fst] in *.
    unfold retries, fetches in *. cbn. lia.
Qed.

Lemma bg_attempt_error_retry (payload : string) (f : nat) (a : Z) (o : outcome) (outs : list outcome) (e : js_error) :
  1 <= a < BG.maxAttempts -> bg_attempt_error o = Some e ->
  BG.attempts payload (S f) a (o :: outs) =
  (EvFetch a payload :: EvSleep (BG.backoff a) :: fst (BG.attempts payload f (a + 1) outs),
   snd (BG.attempts payload f (a + 1) outs)).
Proof.
  intros Ha He. cbn [BG.attempts next_outcome].
  replace (a <=? BG.maxAttempts) with true by (symmetry; apply Z.leb_le; lia).
  assert (Hlt : (a <? BG.maxAttempts) = true) by (apply Z.ltb_lt; lia).
  destruct o as [e' | st b]; cbn [bg_attempt_error BG.try_block] in *.
  - rewrite Hlt. destruct (BG.attempts payload f (a + 1) outs). reflexivity.
  - destruct (resp_ok st).
    + destruct (parse b); [discriminate |]. rewrite Hlt.
      destruct (BG.attempts payload f (a + 1) outs). reflexivity.
    + rewrite Hlt, andb_true_r. destruct (500 <=? st); rewrite ?Hlt;
        destruct (BG.attempts payload f (a + 1) outs); reflexivity.
Qed.

Lemma bg_attempt_error_last (payload : string) (f : nat) (o : outcome) (outs : list outcome) (e : js_error) :
  bg_attempt_error o = Some e ->
  BG.attempts payload (S f) BG.maxAttempts (o :: outs) = ([EvFetch BG.maxAttempts payload], Throw e).
Proof.
  intros He. destruct o as [e' | st b]; cbn [bg_attempt_error] in He.
  - injection He as ->. reflexivity.
  - cbn [BG.attempts next_outcome BG.try_block]. destruct (resp_ok st).
    + destruct (parse b); [discriminate | injection He as <-; reflexivity].
    + injection He as <-. rewrite andb_false_r. reflexivity.
Qed.

Lemma last_close_no_lf (s : string) : no_lf s = true -> last_close s = None.
Proof.
  induction s as [| c r IH]; intros H; [reflexivity |].
  cbn [no_lf] in H. apply andb_true_iff in H. destruct H as [Hc Hr].
  cbn [last_close]. rewrite (IH Hr).
  unfold fence_close. cbn [String.prefix].
  destruct (ascii_dec LF c) as [<- | Hne]; [discriminate Hc | reflexivity].
Qed.

Lemma last_close_app (x q : string) :
  no_lf x = true -> no_lf q = true -> last_close (x ++ fence_close ++ q) = Some x.
Proof.
  intros Hx Hq. induction x as [| c x IH].
  - change (last_close (String LF ("```" ++ q)) = Some EmptyString).
    cbn [last_close]. rewrite last_close_no_lf by exact Hq.
    replace (String.prefix fence_close (String LF ("```" ++ q))) with true; [reflexivity |].
    symmetry. unfold fence_close. clear. destruct q; reflexivity.
  - cbn [no_lf] in Hx. apply andb_true_iff in Hx. destruct Hx as [_ Hx].
    cbn [String.append last_close]. rewrite (IH Hx). reflexivity.
Qed.

Lemma fence_match_skip (p t : string) :
  includes p "`" = false -> fence_match (p ++ t) = fence_match t.
Proof.
  induction p as [| c p IH]; intros H; [reflexivity |].
  cbn [includes] in H. apply orb_false_iff in H. destruct H as [Hc Hp].
  cbn [String.append]. rewrite fence_match_cons.
  replace (match_at (String c (p ++ t))) with (@None string). { apply IH, Hp. }
  unfold match_at. destruct (strip_prefix fence_open (String c (p ++ t))) as [r |] eqn:E; [| reflexivity].
  apply strip_prefix_some in E. unfold fence_open in E. cbn [String.append] in E.
  injection E as Ec _. subst c. exfalso. revert Hc. clear. destruct p; vm_compute; discriminate.
Qed.

Lemma strip_prefix_length (p s r : string) :
  strip_prefix p s = Some r -> (String.length r <= String.length s)%nat.
Proof.
  intros H. apply strip_prefix_some in H. subst s. rewrite slength_app. lia.
Qed.

Lemma skip_to_gt_length (s r : string) :
  skip_to_gt s = Some r -> (String.length r < String.length s)%nat.
Proof.
  revert r. induction s as [| c s IH]; intros r H; cbn [skip_to_gt] in H; [discriminate |].
  cbn [String.length]. destruct (code c =? 62)%nat; [injection H as <-; lia |].
  specialize (IH r H). lia.
Qed.

Lemma after_svg_close_length (s r : string) :
  after_svg_close s = Some r -> (String.length r <= String.length s)%nat.
Proof.
  revert r. induction s as [| c s IH]; intros r H; cbn [after_svg_close] in H.
  - destruct (strip_prefix "</svg>" "") eqn:E; [injection H as <-; eapply strip_prefix_length; eauto | discriminate].
  - destruct (strip_prefix "</svg>" (String c s)) eqn:E.
    + injection H as <-. eapply strip_prefix_length; eauto.
    + specialize (IH r H). cbn [String.length]. lia.
Qed.

Lemma svg_match_at_length (s r : string) :
  svg_match_at s = Some r -> (String.length r < String.length s)%nat.
Proof.
  unfold svg_match_at. intros H.
  destruct (strip_prefix "<svg" s) as [t |] eqn:E1; [| discriminate].
  destruct (skip_to_gt t) as [t' |] eqn:E2; [| discriminate].
  apply after_svg_close_length in H. apply skip_to_gt_length in E2.
  apply strip_prefix_length in E1. lia.
Qed.

Lemma remove_svg_aux_length (f : nat) (s : string) :
  (String.length (remove_svg_aux f s) <= String.length s)%nat.
Proof.
  revert s. induction f as [| f IH]; intros s; cbn [remove_svg_aux]; [lia |].
  destruct (svg_match_at s) as [r |] eqn:E.
  - apply svg_match_at_length in E. specialize (IH r). lia.
  - destruct s as [| c r]; cbn [String.length]; [lia |]. specialize (IH r). lia.
Qed.

Lemma remove_svg_aux_fuel (f1 f2 : nat) (s : string) :
  (String.length s <= f1)%nat -> (String.length s <= f2)%nat ->
  remove_svg_aux f1 s = remove_svg_aux f2 s.
Proof.
  revert f2 s. induction f1 as [| f1 IH]; intros f2 s H1 H2.
  - destruct s; [| cbn in H1; lia]. destruct f2; reflexivity.
  - destruct f2 as [| f2].
    + destruct s; [reflexivity | cbn in H2; lia].
    + cbn [remove_svg_aux]. destruct (svg_match_at s) as [r |] eqn:E.
      * apply svg_match_at_length in E. apply IH; lia.
      * destruct s as [| c r]; [reflexivity |]. cbn [String.length] in H1, H2.
        f_equal. apply IH; lia.
Qed.

Lemma svg_match_at_not_lt (c : ascii) (r : string) :
  c <> "<"%char -> svg_match_at (String c r) = None.
Proof.
  intros Hc. unfold svg_match_at.
  destruct (strip_prefix "<svg" (String c r)) as [t |] eqn:E; [| reflexivity].
  apply strip_prefix_some in E. injection E as E _. congruence.
Qed.

Lemma includes_cons_char (c d : ascii) (r : string) :
  includes (String c r) (String d EmptyString) = false -> c <> d /\ includes r (String d EmptyString) = false.
Proof.
  cbn [includes]. intros H. apply orb_false_iff in H. destruct H as [H1 H2]. split; [| exact H2].
  intros ->. cbn [String.prefix] in H1. destruct (ascii_dec d d); [| congruence].
  destruct r; discriminate H1.
Qed.

Lemma remove_svg_aux_plain (f : nat) (s : string) :
  includes s "<" = false -> remove_svg_aux f s = s.
Proof.
  revert s. induction f as [| f IH]; intros s H; [reflexivity |].
  destruct s as [| c r]; [reflexivity |].
  apply includes_cons_char in H. destruct H as [Hc Hr].
  cbn [remove_svg_aux]. rewrite svg_match_at_not_lt by exact Hc. f_equal. apply IH, Hr.
Qed.

Lemma skip_to_gt_app (a b : string) :
  includes a ">" = false -> skip_to_gt (a ++ String ">" b) = Some b.
Proof.
  induction a as [| c a IH]; intros H; [reflexivity |].
  apply includes_cons_char in H. destruct H as [Hc Ha].
  cbn [String.append skip_to_gt]. rewrite (IH Ha).
  destruct (code c =? 62)%nat eqn:E; [| reflexivity].
  exfalso. apply Hc. apply Nat.eqb_eq in E.
  rewrite <- (ascii_nat_embedding c). unfold code in E. rewrite E. reflexivity.
Qed.

Lemma after_svg_close_eq (s : string) :
  after_svg_close s =
  match strip_prefix "</svg>" s with
  | Some r => Some r
  | None => match s with EmptyString => None | String _ r => after_svg_close r end
  end.
Proof. destruct s; reflexivity. Qed.

Lemma after_svg_close_app (b rest : string) :
  includes b "<" = false -> after_svg_close (b ++ "</svg>" ++ rest) = Some rest.
Proof.
  induction b as [| c b IH]; intros H.
  - change (after_svg_close ("</svg>" ++ rest) = Some rest).
    rewrite after_svg_close_eq, strip_prefix_app. reflexivity.
  - apply includes_cons_char in H. destruct H as [Hc Hb].
    change (String c b ++ "</svg>" ++ rest) with (String c (b ++ "</svg>" ++ rest)).
    rewrite after_svg_close_eq.
    destruct (strip_prefix "</svg>" (String c (b ++ "</svg>" ++ rest))) as [t |] eqn:E.
    + apply strip_prefix_some in E. injection E as E _. congruence.
    + apply IH, Hb.
Qed.

Ltac split_matches H :=
  repeat (match type of H with
          | bind ?m _ = _ => destruct m eqn:?
          | context [match ?x with _ => _ end] => destruct x eqn:?
          end; cbn [bind] in H; try discriminate H).

Lemma normalize_shape (tour : option json) (r : json) (m : model_result) :
  normalize tour r = Ok m ->
  match m with
  | MRParsed v => v = r
  | MRTour d => d = r
  | MRFill _ fi => fi = r /\ exists l, r = JObj l
  | MRUnknown d => d = r /\ isArray (Some r) = false
  end.
Proof.
  intros H.
  destruct r as [| b | n | s | l | l].
  - vm_compute in H. discriminate H.
  - destruct b; vm_compute in H; injection H as <-; split; reflexivity.
  - destruct (n =? 0) eqn:E; unfold normalize in H; cbn in H; rewrite ?E in H; cbn in H;
      injection H as <-; split; reflexivity.
  - destruct (String.eqb s "") eqn:E; unfold normalize in H; cbn in H; rewrite ?E in H; cbn in H;
      injection H as <-; split; reflexivity.
  - vm_compute in H. injection H as <-. reflexivity.
  - unfold normalize in H. cbn [truthy negb get member bind isArray typeof String.eqb] in H.
    change (String.eqb "object" "object") with true in H. cbv iota beta in H.
    split_matches H; try (injection H as <-); try (split; [reflexivity | eexists; reflexivity]); try reflexivity.
    match goal with
    | E : (if truthy tour then _ else _) = Ok (Some _) |- _ => split_matches E
    end.
    injection Heqe1 as <-. split; [reflexivity | eexists; reflexivity].
Qed.

Lemma try_block_return {A} (on_success : string -> except A) (a : Z) (o : outcome) evs (x : A) :
  try_block on_success a o = (evs, TReturn x) -> exists b, on_success b = Ok x.
Proof.
  destruct o as [e | st b]; cbn [try_block]; [discriminate |].
  destruct (resp_ok st); [| destruct ((500 <=? st) && (a <? MAX_RETRIES)); discriminate].
  destruct (on_success b) eqn:E; [| discriminate]. intros [= _ <-]. eauto.
Qed.

Lemma attempts_ok_source {A} (on_success : string -> except A) (payload : string) (fuel : nat) :
  forall a outs m, snd (attempts on_success payload fuel a outs) = Ok m -> exists b, on_success b = Ok m.
Proof.
  induction fuel as [| f IH]; intros a outs m H; [discriminate |].
  cbn [attempts] in H. destruct (a <=? MAX_RETRIES); [| discriminate].
  destruct (next_outcome outs) as [o outs'].
  destruct (try_block on_success a o) as [evs te] eqn:Ht.
  destruct te as [x | | e].
  - injection H as <-. eapply try_block_return; eauto.
  - destruct (attempts on_success payload f (a + 1) outs') as [evs' r] eqn:E.
    apply (IH (a + 1) outs'). rewrite E. exact H.
  - destruct (a <? MAX_RETRIES); [| discriminate].
    destruct (attempts on_success payload f (a + 1) outs') as [evs' r] eqn:E.
    apply (IH (a + 1) outs'). rewrite E. exact H.
Qed.

Lemma callGemini_ok_normalize (userPrompt : string) (pageContext tour : option json)
    (outs : list outcome) (m : model_result) :
  snd (callGemini userPrompt pageContext tour outs) = Ok m -> exists r, normalize tour r = Ok m.
Proof.
  unfold callGemini. destruct (prompt_text userPrompt pageContext tour); [| discriminate].
  intros H. apply attempts_ok_source in H. destruct H as [b H].
  unfold process in H. destruct (parse b); [| discriminate]. cbn [bind] in H.
  destruct (generated_text j); [| discriminate]. cbn [bind] in H. eauto.
Qed.

Lemma js_eq_str_true (v : option json) (s : string) : js_eq_str v s = true -> v = Some (JStr s).
Proof.
  destruct v as [[| | | t | |] |]; cbn; try discriminate. intros H. apply String.eqb_eq in H. subst. reflexivity.
Qed.

Lemma route_tour_shape (r : json) (x : option json) :
  Services.route_tour r = Ok x ->
  exists v, x = Some v /\ (isArray (Some v) = true \/ field v "type" = Some (JStr "fill_input_form")).
Proof.
  intros H. assert (Hr : r <> JNull) by (intros ->; discriminate H).
  assert (G : forall k, get (Some r) k = Ok (field r k)) by (intros k; apply member_field, Hr).
  unfold Services.route_tour in H. rewrite !G in H. cbn [bind] in H.
  destruct (js_eq_str (field r "type") "tour") eqn:Et; cbn [bind] in H.
  - destruct (isArray (field r "data")) eqn:Ea.
    + injection H as <-. destruct (field r "data") as [v |]; [| discriminate].
      eauto.
    + destruct (js_eq_str (field r "type") "fill_input_form") eqn:Ef.
      * injection H as <-. apply js_eq_str_true in Ef. eauto.
      * destruct (isArray (Some r)) eqn:Ear; [injection H as <-; eauto |].
        cbn [bind] in H. rewrite andb_false_r in H. discriminate H.
  - destruct (js_eq_str (field r "type") "fill_input_form") eqn:Ef.
    + injection H as <-. apply js_eq_str_true in Ef. eauto.
    + destruct (isArray (Some r)) eqn:Ear; [injection H as <-; eauto |].
      cbn [bind] in H.
      destruct (truthy (field r "data") && isArray (field r "data")) eqn:Ed; [| discriminate H].
      injection H as <-. apply andb_true_iff in Ed. destruct Ed as [_ Ed].
      destruct (field r "data") as [v |]; [eauto | discriminate].
Qed.

Lemma normalizeDriverSteps_cases (steps : list json) :
  match normalizeDriverSteps steps with
  | Ok _ => ~ In JNull steps
  | Throw e => e = TypeError /\ In JNull steps
  end.
Proof.
  induction steps as [| s r IH]; [cbn; tauto |].
  cbn [normalizeDriverSteps].
  assert (Hd : s = JNull \/ s <> JNull) by (destruct s; [left | right..]; congruence).
  destruct Hd as [-> | Hs].
  - split; [reflexivity | left; reflexivity].
  - destruct (normalize_step_ok s Hs) as [n [Hn _]]. rewrite Hn. cbn [bind].
    destruct (normalizeDriverSteps r); cbn [bind].
    + intros [H | H]; [congruence | tauto].
    + destruct IH as [-> H]. split; [reflexivity | right; exact H].
Qed.

Lemma forallb_not_null (l : list json) : forallb not_null l = true <-> ~ In JNull l.
Proof.
  induction l as [| s r IH]; cbn; [tauto |].
  rewrite andb_true_iff, IH. destruct s; cbn; intuition congruence.
Qed.

Lemma runDriverjs_result (w : window_driver) (l : list json) :
  (exists x, runDriverjs w l = Ok x) \/ (runDriverjs w l = Throw TypeError /\ forallb not_null l = false).
Proof.
  pose proof (normalizeDriverSteps_cases l) as H. unfold runDriverjs.
  destruct (normalizeDriverSteps l) as [ns | e]; cbn [bind].
  - left. destruct ns; [eexists; reflexivity |]. destruct w as [| | []]; eexists; reflexivity.
  - right. destruct H as [-> H]. split; [reflexivity |].
    destruct (forallb not_null l) eqn:E; [| reflexivity]. apply forallb_not_null in E. tauto.
Qed.

Lemma runDriverjs_ok (w : window_driver) (l : list json) (x : list (list norm_step)) :
  runDriverjs w l = Ok x -> forallb not_null l = true.
Proof.
  intros H. destruct (forallb not_null l) eqn:E; [reflexivity |].
  destruct (runDriverjs_result w l) as [_ | [H' _]]; [| congruence].
  exfalso. pose proof (normalizeDriverSteps_cases l) as N. unfold runDriverjs in H.
  destruct (normalizeDriverSteps l); cbn [bind] in H; [| discriminate].
  assert (~ In JNull l) as Hn by exact N. apply forallb_not_null in Hn. congruence.
Qed.

Lemma buildContextPrompt_page (doc : document) (now : Z) :
  exists t, buildContextPrompt (Some (getPageContext doc now)) = Ok t.
Proof.
  unfold getPageContext. destruct (body doc) as [els |].
  - destruct (String.eqb (snippet_of els) "") eqn:Es;
      unfold buildContextPrompt; cbn [truthy negb get member bind lookup];
      change (String.eqb "title" "title") with true; change (String.eqb "url" "title") with false;
      change (String.eqb "url" "url") with true; change (String.eqb "textSnippet" "title") with false;
      change (String.eqb "textSnippet" "url") with false;
      change (String.eqb "textSnippet" "textSnippet") with true; cbv iota beta;
      cbn [truthy]; try rewrite Es; cbn [negb bind slice0];
      destruct (negb (String.eqb (title doc) "")), (negb (String.eqb (href doc) "")); eexists; reflexivity.
  - unfold buildContextPrompt; cbn [truthy negb get member bind lookup];
      change (String.eqb "title" "title") with true; change (String.eqb "url" "title") with false;
      change (String.eqb "url" "url") with true; change (String.eqb "textSnippet" "title") with false;
      change (String.eqb "textSnippet" "url") with false;
      change (String.eqb "textSnippet" "textSnippet") with true; cbv iota beta;
      cbn [truthy negb bind];
      destruct (negb (String.eqb (title doc) "")), (negb (String.eqb (href doc) "")); eexists; reflexivity.
Qed.

Lemma to_lower_char_ws (c : ascii) : is_js_ws c = true -> to_lower_char c = c.
Proof.
  destruct c as [[] [] [] [] [] [] [] []]; vm_compute; (reflexivity || discriminate).
Qed.

Lemma trim_left_ws_app (w x : string) : trim_left w = EmptyString -> trim_left (w ++ x) = trim_left x.
Proof.
  induction w as [| c w IH]; intros H; [reflexivity |]. cbn [trim_left String.append] in *.
  destruct (is_js_ws c); [apply IH, H | discriminate H].
Qed.

Lemma trim_right_cons (c : ascii) (x : string) :
  is_js_ws c = false -> trim_right (String c x) = String c (trim_right x).
Proof. intros H. cbn [trim_right]. rewrite H, andb_false_r. reflexivity. Qed.

Lemma lower_not_ws (c d : ascii) : to_lower_char c = d -> is_js_ws d = false -> is_js_ws c = false.
Proof.
  intros H Hd. destruct (is_js_ws c) eqn:E; [| reflexivity].
  rewrite (to_lower_char_ws c E) in H. subst. congruence.
Qed.

Lemma prefix_app (p z : string) : String.prefix p (p ++ z) = true.
Proof.
  induction p as [| c p IH]; [destruct z; reflexivity |]. cbn. destruct (ascii_dec c c); [exact IH | congruence].
Qed.

End ExtraFacts.

(* ------------------------------------------------------------------------- *)
(** ** The claims *)

Module Claims.
Import Json Utils Gemini GatewaySpec JsonWf JsonFacts GatewayFacts.
Import Background BackgroundSpec Content ContentFacts.

(** C1: on a 4xx response at the first attempt, [callGemini] does not fail
    at once: the error thrown for the response is caught by the loop's own
    [catch], which sleeps [500] ms and makes a second request. *)
Theorem callGemini_4xx_retried (userPrompt : string) (pageContext tour : option json)
    (status : Z) (body : string) (outs : list outcome) :
  400 <= status < 500 ->
  exists P evs,
    fst (callGemini userPrompt pageContext tour (FetchResponse status body :: outs))
    = EvFetch 1 P :: EvSleep 500 :: EvFetch 2 P :: evs.
Proof.
  intros Hs. destruct (prompt_text_ok userPrompt pageContext tour) as [text Ht].
  unfold callGemini. rewrite Ht.
  rewrite attempts_failed_retry.
  - destruct (attempts_from_head (process tour) (stringify (request_body text)) (1 + 1) outs)
      as [evs Hevs]; [unfold MAX_RETRIES; lia |].
    exists (stringify (request_body text)), evs. cbn [fst]. rewrite Hevs. reflexivity.
  - unfold MAX_RETRIES. lia.
  - intros st b [= <- <-]. unfold resp_ok.
    replace (status <=? 299) with false by (symmetry; apply Z.leb_gt; lia).
    apply andb_false_r.
Qed.

Lemma callGemini_4xx_retried_witness :
  400 <= 404 < 500 /\
  exists P evs, fst (callGemini "p" None None [FetchResponse 404 "not found"])
                = EvFetch 1 P :: EvSleep 500 :: EvFetch 2 P :: evs.
Proof. split; [lia | apply callGemini_4xx_retried; lia]. Defined.

(** C2: [callGemini] makes at most three requests; an attempt before the
    third that fails at the network level or answers a status of at least
    500 is followed by a sleep of [500 * 2 ^ (attempt - 1)] ms and the
    next attempt, so the delays double; on [[500, 500, 200]] with a usable
    200 reply the call makes two retries (sleeps of 500 and 1000 ms) and
    succeeds. *)
Theorem callGemini_retry_policy (userPrompt : string) (pageContext tour : option json) :
  exists P : string,
    (forall outs, callGemini userPrompt pageContext tour outs = attempts_from (process tour) P 1 outs)
    /\ (forall outs, (fetches (fst (callGemini userPrompt pageContext tour outs)) <= 3)%nat)
    /\ (forall a o outs, 1 <= a < MAX_RETRIES -> transient o = true ->
          attempts_from (process tour) P a (o :: outs)
          = (EvFetch a P :: EvSleep (delay a) :: fst (attempts_from (process tour) P (a + 1) outs),
             snd (attempts_from (process tour) P (a + 1) outs)))
    /\ delay 1 = 500
    /\ (forall a, 1 <= a -> delay (a + 1) = 2 * delay a)
    /\ (forall b1 b2 b m, process tour b = Ok m ->
          callGemini userPrompt pageContext tour
            [FetchResponse 500 b1; FetchResponse 500 b2; FetchResponse 200 b]
          = ([EvFetch 1 P; EvSleep 500; EvFetch 2 P; EvSleep 1000; EvFetch 3 P], Ok m)).
Proof.
  destruct (prompt_text_ok userPrompt pageContext tour) as [text Ht].
  exists (stringify (request_body text)).
  assert (Hcall : forall outs, callGemini userPrompt pageContext tour outs
                  = attempts_from (process tour) (stringify (request_body text)) 1 outs).
  { intros outs. unfold callGemini. rewrite Ht. reflexivity. }
  assert (Hretry : forall a o outs, 1 <= a < MAX_RETRIES -> transient o = true ->
          attempts_from (process tour) (stringify (request_body text)) a (o :: outs)
          = (EvFetch a (stringify (request_body text)) :: EvSleep (delay a)
               :: fst (attempts_from (process tour) (stringify (request_body text)) (a + 1) outs),
             snd (attempts_from (process tour) (stringify (request_body text)) (a + 1) outs))).
  { intros a o outs Ha Ho. apply attempts_failed_retry; [exact Ha |].
    intros st b ->. cbn [transient] in Ho. apply Z.leb_le in Ho. unfold resp_ok.
    replace (st <=? 299) with false by (symmetry; apply Z.leb_gt; lia). apply andb_false_r. }
  split; [exact Hcall |]. split.
  { intros outs. rewrite Hcall. apply attempts_fetches. }
  split; [exact Hretry |]. split; [reflexivity |]. split.
  { intros a Ha. unfold delay, BASE_DELAY_MS.
    replace (a + 1 - 1) with (Z.succ (a - 1)) by lia. rewrite Z.pow_succ_r by lia. lia. }
  intros b1 b2 b m Hm. rewrite Hcall.
  rewrite Hretry by (reflexivity || (unfold MAX_RETRIES; lia)). cbn [Z.add].
  rewrite Hretry by (reflexivity || (unfold MAX_RETRIES; lia)). cbn [Z.add].
  rewrite (attempts_last_ok (process tour) _ 200 b [] m eq_refl Hm). reflexivity.
Qed.

(** C3: there is no [UnparsableModelOutput] error. When the generated text
    neither parses nor holds a non-empty fenced block that parses,
    [parseJson] gives [null], and the array-returning revision of
    [callGemini] turns that into a successful empty step list. *)
Theorem process_v1_unparsable (body g : string) (apiResp : json) :
  parse body = Some apiResp -> generated_text apiResp = Ok (JStr g) -> parse g = None ->
  (forall g', fence_match g = Some g' -> g' <> EmptyString -> parse g' = None) ->
  parseJson (Some (JStr g)) = JNull /\ process_v1 body = Ok (JArr []).
Proof.
  intros H1 H2 H3 H4. pose proof (parseJson_malformed g H3 H4) as Hn.
  split; [exact Hn |]. unfold process_v1. rewrite H1. cbn [bind]. rewrite H2. cbn [bind].
  rewrite Hn. reflexivity.
Qed.

Lemma process_v1_unparsable_witness :
  parse (stringify (api_response "nope")) = Some (api_response "nope")
  /\ generated_text (api_response "nope") = Ok (JStr "nope")
  /\ parse "nope" = None
  /\ (forall g', fence_match "nope" = Some g' -> g' <> EmptyString -> parse g' = None)
  /\ parseJson (Some (JStr "nope")) = JNull
  /\ process_v1 (stringify (api_response "nope")) = Ok (JArr []).
Proof.
  assert (Hf : forall g', fence_match "nope" = Some g' -> g' <> EmptyString -> parse g' = None).
  { intros g' Hg. vm_compute in Hg. discriminate Hg. }
  split; [vm_compute; reflexivity |]. split; [reflexivity |]. split; [reflexivity |].
  split; [exact Hf |].
  apply (process_v1_unparsable _ _ _
           (eq_refl : parse (stringify (api_response "nope")) = Some (api_response "nope"))
           eq_refl eq_refl Hf).
Defined.

(** Against the specification: a model reply whose text is [nope] makes the
    array-returning [callGemini] succeed with [[]] at the first attempt. *)
Lemma callGemini_v1_unparsable_succeeds :
  callGemini_v1 "p" None [FetchResponse 200 (stringify (api_response "nope"))]
  = ([EvFetch 1 (stringify (request_body
        match prompt_text_v1 "p" None with Ok t => t | Throw _ => EmptyString end))],
     Ok (JArr [])).
Proof. vm_compute. reflexivity. Qed.

(** C4: for a parsed output other than [null], [normalize] follows the
    specification's order of fallbacks with "has a field" read as "the
    field is truthy": [type] and [data] both truthy, a bare array, a truthy
    element ["0"] with a truthy [popover], a truthy tour with truthy
    [formInputs] sharing a key with the output, and otherwise unknown. *)
Theorem normalize_truthy (tour : option json) (result : json) :
  result <> JNull -> normalize tour result = Ok (normalize_spec truthy tour result).
Proof.
  intros Hr. destruct result as [| b | n | s | l | l]; [congruence | | | | |].
  - destruct b; reflexivity.
  - destruct (n =? 0) eqn:E; unfold normalize, normalize_spec; cbn; rewrite ?E; reflexivity.
  - destruct (String.eqb s "") eqn:E; unfold normalize, normalize_spec; cbn; rewrite ?E; reflexivity.
  - reflexivity.
  - unfold normalize, normalize_spec. cbn [truthy negb bind get member field_opt field].
    destruct (truthy (lookup "type" l)) eqn:Ety; cbn [negb bind andb];
      [destruct (truthy (lookup "data" l)) eqn:Eda; cbn [negb bind andb]; [reflexivity |] |].
    all: change (isArray (Some (JObj l))) with false;
      change ((typeof (Some (JObj l)) =? "object")%string) with true; cbv iota beta.
    all: destruct (truthy (lookup "0" l)) eqn:E0;
      [rewrite (get_truthy _ _ E0); cbn [bind];
       destruct (truthy (field_opt (lookup "0" l) "popover")); [reflexivity |]
      | rewrite (truthy_field_false _ _ E0); cbn [bind]].
    all: destruct (truthy tour) eqn:Et; cbn [andb bind]; [| reflexivity].
    all: rewrite (get_truthy _ _ Et); cbn [bind].
    all: destruct (truthy (field_opt tour "formInputs")); cbn [andb]; [| reflexivity].
    all: destruct existsb; [rewrite (get_truthy _ _ Et); reflexivity | reflexivity].
Qed.

Lemma normalize_truthy_witness :
  JArr [] <> JNull /\ normalize None (JArr []) = Ok (normalize_spec truthy None (JArr [])).
Proof. split; [discriminate | apply normalize_truthy; discriminate]. Defined.

(** Against the specification: an output [{type: "tour", data: null}] has both
    fields, but [callGemini] returns it as [{type: 'unknown', data}]. *)
Lemma callGemini_type_data_null_unknown :
  snd (callGemini "p" None None
         [FetchResponse 200 (stringify (api_response
            (stringify (JObj [("type", JStr "tour"); ("data", JNull)]))))])
  = Ok (MRUnknown (JObj [("type", JStr "tour"); ("data", JNull)]))
  /\ normalize_spec present None (JObj [("type", JStr "tour"); ("data", JNull)])
     = MRParsed (JObj [("type", JStr "tour"); ("data", JNull)]).
Proof. split; vm_compute; reflexivity. Qed.

(** C5: [parseJson] reads back [JSON.stringify] of every JSON value (objects
    with distinct keys, integer numbers), and gives [null] on every text
    that neither parses nor holds a non-empty fenced block that parses. It
    is a total function: it never throws. *)
Theorem parseJson_roundtrip :
  (forall v, json_wf v = true -> parseJson (Some (JStr (stringify v))) = v)
  /\ (forall t, parse t = None ->
        (forall g, fence_match t = Some g -> g <> EmptyString -> parse g = None) ->
        parseJson (Some (JStr t)) = JNull).
Proof.
  split; [| exact parseJson_malformed].
  intros v Hwf. unfold parseJson, parseJson_run.
  rewrite (fence_match_no_lf _ (no_lf_stringify v)). cbn [snd]. unfold parse_or_null, parse.
  pose proof (parse_stringify v Hwf (String.length (stringify v)) EmptyString (need_length v) eq_refl)
    as H.
  rewrite sapp_nil in H. rewrite H. reflexivity.
Qed.

Lemma parseJson_roundtrip_witness :
  json_wf (JObj [("type", JStr "tour"); ("data", JArr [JNum (-12); JNull; JBool true; JStr (String dquote "b")])]) = true
  /\ parseJson (Some (JStr (stringify
       (JObj [("type", JStr "tour"); ("data", JArr [JNum (-12); JNull; JBool true; JStr (String dquote "b")])]))))
     = JObj [("type", JStr "tour"); ("data", JArr [JNum (-12); JNull; JBool true; JStr (String dquote "b")])]
  /\ parseJson (Some (JStr "{oops")) = JNull.
Proof.
  split; [reflexivity |]. split.
  - apply (proj1 parseJson_roundtrip). reflexivity.
  - apply (proj2 parseJson_roundtrip); [reflexivity |].
    intros g Hg. vm_compute in Hg. discriminate Hg.
Defined.

(** C6: the prompt of [callGemini] does not depend on the page context:
    [pageContext] is overwritten with [""] before it is read, so with no
    tour the prompt is the user prompt, two empty lines and the output
    instruction without the tour format, and no context block. *)
Theorem prompt_text_drops_context (userPrompt : string) :
  (forall pageContext tour,
     prompt_text userPrompt pageContext tour = prompt_text userPrompt None tour)
  /\ (forall pageContext, prompt_text userPrompt pageContext None
      = Ok ("User Prompt: " ++ String dquote (userPrompt ++ String dquote (NL2 ++ EmptyString))
            ++ NL2 ++ trim (RESPONSE_FORMAT ++ DECISION_LOGIC))).
Proof. split; intros; reflexivity. Qed.

(** With a title, a url and a snippet, the prompt has none of them; the
    earlier revision puts the title into its prompt. *)
Lemma prompt_text_example_context :
  exists t, prompt_text "p" (Some example_context) None = Ok t
    /\ includes t "---PAGE CONTEXT---" = false /\ includes t "Title: T" = false
    /\ exists t1, prompt_text_v1 "p" (Some example_context) = Ok t1
                  /\ includes t1 "Title: T" = true.
Proof.
  eexists. split; [reflexivity |]. split; [vm_compute; reflexivity |].
  split; [vm_compute; reflexivity |].
  eexists; split; [reflexivity | vm_compute; reflexivity].
Qed.

(** C7: both coordinators deliver a message as the specification asks: a
    delivered first send is the result; another failure than a missing
    receiver is thrown with no injection; a missing receiver leads to
    exactly one injection and, if it succeeds, exactly one more send,
    whose failure, like a failed injection, is thrown. *)
Theorem delivery_retry_once (tabId : Z) (msg : json) :
  delivery_contract sendMessageWithInjectionRetry tabId msg
  /\ delivery_contract sendMessageToTab tabId msg.
Proof.
  split; repeat split.
  all: intros; unfold run; cbn.
  all: try (rewrite H; cbn).
  all: try (unfold isMissingReceiverError in H; cbn [message_of] in H; rewrite H; cbn).
  all: try reflexivity.
  all: eexists; reflexivity.
Qed.

(** C8: [getPageContext] always returns [{title, url, textSnippet,
    timestamp}], with [textSnippet] [null] when [document.body] is [null]
    and when the page has no anchor or button. The reply to
    [REQUEST_PAGE_CONTEXT] comes from the listener registered first: it is
    the same context when [document.body] exists, and an empty object
    [{}], with no [textSnippet], when it does not. *)
Theorem snapshot_never_throws (doc : document) (now : Z) :
  (exists s, getPageContext doc now
             = JObj [("title", JStr (title doc)); ("url", JStr (href doc));
                     ("textSnippet", s); ("timestamp", JNum now)])
  /\ (body doc = None -> field (getPageContext doc now) "textSnippet" = Some JNull)
  /\ (forall els, body doc = Some els -> filter is_context_element els = [] ->
        field (getPageContext doc now) "textSnippet" = Some JNull)
  /\ (forall els, body doc = Some els ->
        inline_request_page_context doc now = handle_request_page_context doc now)
  /\ (body doc = None -> inline_request_page_context doc now = JObj [("pageContext", JObj [])]).
Proof.
  unfold handle_request_page_context, inline_request_page_context, getPageContext.
  destruct (body doc) as [els |]; repeat split; intros; try discriminate;
    try (eexists; reflexivity); try reflexivity.
  match goal with H : Some _ = Some _ |- _ => injection H as <- end.
  unfold snippet_of. match goal with H : filter _ _ = [] |- _ => rewrite H end. reflexivity.
Qed.

(** Against the specification: on a page without a body the snapshot throws and
    the reply's page context has no [textSnippet] at all. *)
Lemma inline_failure_no_snippet :
  inline_request_page_context {| title := "T"; href := "u"; body := None |} 0
  = JObj [("pageContext", JObj [])]
  /\ field (JObj []) "textSnippet" = None.
Proof. split; reflexivity. Qed.

(** C9: for a non-empty list of steps none of which is [null],
    [runDriverjs] hands the highlighting library's factory one sequence,
    step by step the normalisation of the input, when the factory is
    there, and calls nothing otherwise; a step with no truthy [xpath],
    [element] or [selector] normalises to a [null] element. *)
Theorem runDriverjs_once (steps : list json) :
  steps <> [] -> Forall (fun s => s <> JNull) steps ->
  exists ns,
    Forall2 (fun s n => normalize_step s = Ok n) steps ns
    /\ List.length ns = List.length steps
    /\ runDriverjs (DriverJs true) steps = Ok [ns]
    /\ (forall w, w <> DriverJs true -> runDriverjs w steps = Ok [])
    /\ (forall s, In s steps ->
          truthy (field s "xpath") = false -> truthy (field s "element") = false ->
          truthy (field s "selector") = false ->
          exists n, normalize_step s = Ok n /\ ns_element n = LNull).
Proof.
  intros Hne Hnn. destruct (normalizeDriverSteps_ok steps Hnn) as [ns [Hf Hn]].
  assert (Hns : ns <> []).
  { intros ->. inversion Hf; subst. congruence. }
  exists ns. split; [exact Hf |]. split; [symmetry; exact (Forall2_length Hf) |].
  unfold runDriverjs. rewrite Hn. cbn [bind].
  destruct ns as [| n ns']; [congruence |]. split; [reflexivity |]. split.
  - intros [| | [|]] Hw; try reflexivity. congruence.
  - intros s Hin H1 H2 H3. rewrite Forall_forall in Hnn.
    destruct (normalize_step_ok s (Hnn s Hin)) as [m [Hm Hel]].
    exists m. split; [exact Hm | apply Hel; assumption].
Qed.

Lemma runDriverjs_once_witness :
  [JObj [("title", JStr "t")]] <> [] /\ Forall (fun s => s <> JNull) [JObj [("title", JStr "t")]]
  /\ exists ns,
    Forall2 (fun s n => normalize_step s = Ok n) [JObj [("title", JStr "t")]] ns
    /\ List.length ns = List.length [JObj [("title", JStr "t")]]
    /\ runDriverjs (DriverJs true) [JObj [("title", JStr "t")]] = Ok [ns]
    /\ (forall w, w <> DriverJs true -> runDriverjs w [JObj [("title", JStr "t")]] = Ok [])
    /\ (forall s, In s [JObj [("title", JStr "t")]] ->
          truthy (field s "xpath") = false -> truthy (field s "element") = false ->
          truthy (field s "selector") = false ->
          exists n, normalize_step s = Ok n /\ ns_element n = LNull).
Proof.
  assert (H1 : [JObj [("title", JStr "t")]] <> []) by discriminate.
  assert (H2 : Forall (fun s => s <> JNull) [JObj [("title", JStr "t")]])
    by (constructor; [discriminate | constructor]).
  split; [exact H1 |]. split; [exact H2 |]. exact (runDriverjs_once _ H1 H2).
Defined.

(** Against the specification: without [window.driver] the highlighting library
    is not called for a non-empty tour. *)
Lemma runDriverjs_no_driver :
  runDriverjs DriverUndefined [JObj [("element", JStr "#a")]] = Ok [].
Proof. reflexivity. Qed.

(** C10: a non-empty fenced interior that does not parse gives [null]
    with only the interior handed to [JSON.parse]; an empty interior makes
    [parseJson] parse the whole text instead; any value that is not a
    string gives [null] with nothing parsed. *)
Theorem parseJson_fence_no_fallback :
  (forall t g, fence_match t = Some g -> g <> EmptyString -> parse g = None ->
     parseJson_run (Some (JStr t)) = ([g], JNull))
  /\ (forall t, fence_match t = Some EmptyString ->
        parseJson_run (Some (JStr t)) = ([t], parse_or_null t))
  /\ (forall v, (forall s, v <> Some (JStr s)) -> parseJson_run v = ([], JNull)).
Proof.
  split; [| split].
  - intros t g Hm Hg Hp. unfold parseJson_run. rewrite Hm.
    apply String.eqb_neq in Hg. rewrite Hg. cbn [negb]. unfold parse_or_null. rewrite Hp.
    reflexivity.
  - intros t Hm. unfold parseJson_run. rewrite Hm. reflexivity.
  - intros [[| | | s | |] |] Hv; try reflexivity. exfalso. exact (Hv s eq_refl).
Qed.

(** Against the specification: the text [```json], two line feeds and [```]
    matches the fence with an empty interior, and the whole text is then
    handed to [JSON.parse]. *)
Lemma parseJson_empty_fence_falls_back :
  parseJson_run (Some (JStr (fence_open ++ fence_close)))
  = ([fence_open ++ fence_close], JNull).
Proof. vm_compute. reflexivity. Qed.

End Claims.

(* ------------------------------------------------------------------------- *)
(** ** Further properties of the code *)

Module Extras.
Import Json Utils Gemini GatewaySpec JsonWf JsonFacts GatewayFacts RetrySpec.
Import Background Content ContentFacts ContentHandlers JsOps StepSpec ExtraFacts.

Module BG := BackgroundGemini.

(** *** The model gateway *)

(** Three failing attempts of [callGemini] (a rejected [fetch], a status
    that is not 2xx, or a 2xx reply whose processing throws) give three
    requests with sleeps of 500 and 1000 ms between them, and the call
    throws the error of the third attempt. *)
Theorem callGemini_three_failures (userPrompt : string) (pageContext tour : option json)
    (o1 o2 o3 : outcome) (outs : list outcome) (e1 e2 e3 : js_error) :
  attempt_error (process tour) o1 = Some e1 ->
  attempt_error (process tour) o2 = Some e2 ->
  attempt_error (process tour) o3 = Some e3 ->
  exists P, callGemini userPrompt pageContext tour (o1 :: o2 :: o3 :: outs)
            = ([EvFetch 1 P; EvSleep 500; EvFetch 2 P; EvSleep 1000; EvFetch 3 P], Throw e3).
Proof.
  intros H1 H2 H3. destruct (prompt_text_ok userPrompt pageContext tour) as [text Ht].
  exists (stringify (request_body text)). unfold callGemini. rewrite Ht.
  rewrite (attempt_error_retry _ _ 1 o1 _ e1) by (unfold MAX_RETRIES; lia || exact H1).
  cbn [Z.add].
  rewrite (attempt_error_retry _ _ 2 o2 _ e2) by (unfold MAX_RETRIES; lia || exact H2).
  cbn [Z.add].
  rewrite (attempt_error_last _ _ o3 outs e3 H3). reflexivity.
Qed.

Lemma callGemini_three_failures_witness :
  attempt_error (process None) (FetchReject TypeError) = Some TypeError
  /\ attempt_error (process None) (FetchResponse 503 "busy") = Some (api_error 503 "busy")
  /\ attempt_error (process None) (FetchResponse 404 "gone") = Some (api_error 404 "gone")
  /\ exists P, callGemini "p" None None
                 [FetchReject TypeError; FetchResponse 503 "busy"; FetchResponse 404 "gone"]
               = ([EvFetch 1 P; EvSleep 500; EvFetch 2 P; EvSleep 1000; EvFetch 3 P],
                  Throw (api_error 404 "gone")).
Proof.
  split; [reflexivity |]. split; [reflexivity |]. split; [reflexivity |].
  apply (callGemini_three_failures "p" None None _ _ _ [] TypeError (api_error 503 "busy"));
    reflexivity.
Defined.

(** Every call of [callGemini] sleeps once per retry: one sleep fewer than
    it makes requests, and it makes at most three requests. *)
Theorem callGemini_retries_fetches (userPrompt : string) (pageContext tour : option json)
    (outs : list outcome) :
  (retries (fst (callGemini userPrompt pageContext tour outs)) + 1
   = fetches (fst (callGemini userPrompt pageContext tour outs)))%nat
  /\ (fetches (fst (callGemini userPrompt pageContext tour outs)) <= 3)%nat.
Proof.
  destruct (prompt_text_ok userPrompt pageContext tour) as [t Ht].
  unfold callGemini. rewrite Ht. apply attempts_from_sleeps.
Qed.

(** The earlier, array-returning [callGemini] either throws before any
    request (its prompt cannot be built) or sleeps once per retry, with at
    most three requests. *)
Theorem callGemini_v1_retries_fetches (userPrompt : string) (pageContext : option json)
    (outs : list outcome) :
  fst (callGemini_v1 userPrompt pageContext outs) = []
  \/ ((retries (fst (callGemini_v1 userPrompt pageContext outs)) + 1
       = fetches (fst (callGemini_v1 userPrompt pageContext outs)))%nat
      /\ (fetches (fst (callGemini_v1 userPrompt pageContext outs)) <= 3)%nat).
Proof.
  unfold callGemini_v1. destruct (prompt_text_v1 userPrompt pageContext) as [t |].
  - right. apply attempts_from_sleeps.
  - left. reflexivity.
Qed.

(** A JSON value in a fenced [json] block is read back by [parseJson]
    when the text before the block has no backquote and the text after it
    has no line break. *)
Theorem parseJson_fenced (v : json) (p q : string) :
  json_wf v = true -> includes p "`" = false -> no_lf q = true ->
  parseJson (Some (JStr (p ++ fence_open ++ stringify v ++ fence_close ++ q))) = v.
Proof.
  intros Hwf Hp Hq. unfold parseJson, parseJson_run.
  rewrite fence_match_skip by exact Hp.
  assert (Hm : fence_match (fence_open ++ stringify v ++ fence_close ++ q) = Some (stringify v)).
  { destruct (fence_open ++ stringify v ++ fence_close ++ q) as [| c r] eqn:E.
    - unfold fence_open in E. discriminate E.
    - rewrite fence_match_cons, <- E. unfold match_at. rewrite strip_prefix_app.
      rewrite last_close_app by (apply no_lf_stringify || exact Hq). reflexivity. }
  rewrite Hm. destruct (stringify_head v) as [c [t [Ht _]]]. rewrite Ht. cbn [String.eqb negb snd].
  rewrite <- Ht. unfold parse_or_null, parse.
  pose proof (parse_stringify v Hwf (String.length (stringify v)) EmptyString (need_length v) eq_refl)
    as H.
  rewrite sapp_nil in H. rewrite H. reflexivity.
Qed.

Lemma parseJson_fenced_witness :
  json_wf (JArr [JObj [("element", JStr "#a")]]) = true
  /\ includes "Here are the steps: " "`" = false /\ no_lf " Enjoy." = true
  /\ parseJson (Some (JStr ("Here are the steps: " ++ fence_open
                            ++ stringify (JArr [JObj [("element", JStr "#a")]])
                            ++ fence_close ++ " Enjoy.")))
     = JArr [JObj [("element", JStr "#a")]].
Proof.
  split; [reflexivity |]. split; [reflexivity |]. split; [reflexivity |].
  apply parseJson_fenced; reflexivity.
Defined.

(** [buildContextPrompt] of a context whose title, url and snippet are
    non-empty strings: the header, the three parts separated by blank
    lines, and the snippet cut to its first 8000 characters. *)
Theorem buildContextPrompt_strings (l : list (string * json)) (t u s : string) :
  lookup "title" l = Some (JStr t) -> lookup "url" l = Some (JStr u) ->
  lookup "textSnippet" l = Some (JStr s) ->
  String.eqb t "" = false -> String.eqb u "" = false -> String.eqb s "" = false ->
  buildContextPrompt (Some (JObj l))
  = Ok ("---PAGE CONTEXT---" ++ String LF ("Title: " ++ t ++ NL2 ++ "URL: " ++ u ++ NL2
        ++ "Page text snippet:" ++ String LF (String.substring 0 MAX_CONTEXT_SNIPPET_LENGTH s))).
Proof.
  intros Ht Hu Hs Et Eu Es. unfold buildContextPrompt. cbn [truthy negb get member bind].
  rewrite Ht, Hu, Hs. cbn [truthy]. rewrite Et, Eu, Es. cbn [negb bind slice0 List.app template to_js_string join].
  rewrite !sapp_assoc. reflexivity.
Qed.

Lemma buildContextPrompt_strings_witness :
  buildContextPrompt (Some (JObj [("title", JStr "Shop"); ("url", JStr "https://x.test");
                                  ("textSnippet", JStr "<a>Buy</a>")]))
  = Ok ("---PAGE CONTEXT---" ++ String LF ("Title: " ++ "Shop" ++ NL2 ++ "URL: " ++ "https://x.test"
        ++ NL2 ++ "Page text snippet:" ++ String LF (String.substring 0 MAX_CONTEXT_SNIPPET_LENGTH "<a>Buy</a>"))).
Proof. apply buildContextPrompt_strings; reflexivity. Defined.

(** A truthy [textSnippet] that is neither a string nor an array has no
    [slice] method: [buildContextPrompt] throws a [TypeError], and the
    earlier [callGemini] throws it before any request. *)
Theorem buildContextPrompt_bad_snippet (l : list (string * json)) (v : json) (userPrompt : string)
    (outs : list outcome) :
  lookup "textSnippet" l = Some v -> truthy (Some v) = true ->
  (forall s, v <> JStr s) -> (forall a, v <> JArr a) ->
  buildContextPrompt (Some (JObj l)) = Throw TypeError
  /\ callGemini_v1 userPrompt (Some (JObj l)) outs = ([], Throw TypeError).
Proof.
  intros Hl Ht Hs Ha.
  assert (H : buildContextPrompt (Some (JObj l)) = Throw TypeError).
  { unfold buildContextPrompt. cbn [truthy negb get member bind]. rewrite Hl, Ht. cbn [bind].
    destruct v as [| | | s | a |]; try reflexivity; [destruct (Hs s eq_refl) | destruct (Ha a eq_refl)]. }
  split; [exact H |]. unfold callGemini_v1, prompt_text_v1. rewrite H. reflexivity.
Qed.

Lemma buildContextPrompt_bad_snippet_witness :
  lookup "textSnippet" [("title", JStr "T"); ("textSnippet", JNum 42)] = Some (JNum 42)
  /\ truthy (Some (JNum 42)) = true
  /\ buildContextPrompt (Some (JObj [("title", JStr "T"); ("textSnippet", JNum 42)])) = Throw TypeError
  /\ callGemini_v1 "p" (Some (JObj [("title", JStr "T"); ("textSnippet", JNum 42)]))
       [FetchResponse 200 "[]"] = ([], Throw TypeError).
Proof.
  split; [reflexivity |]. split; [reflexivity |].
  apply (buildContextPrompt_bad_snippet _ (JNum 42)); [reflexivity | reflexivity | |];
    intros x Hx; discriminate Hx.
Defined.

(** The page context the content script builds never makes the earlier
    [callGemini] throw before its first request: its prompt is built and
    the first attempt posts it. *)
Theorem callGemini_v1_page_context (userPrompt : string) (doc : document) (now : Z) (outs : list outcome) :
  exists text evs,
    prompt_text_v1 userPrompt (Some (getPageContext doc now)) = Ok text
    /\ fst (callGemini_v1 userPrompt (Some (getPageContext doc now)) outs)
       = EvFetch 1 (stringify (request_body text)) :: evs.
Proof.
  destruct (buildContextPrompt_page doc now) as [t Ht].
  exists (userPrompt ++ NL2 ++ t ++ NL2 ++ OUTPUT_INSTRUCTION_V1).
  assert (Hp : prompt_text_v1 userPrompt (Some (getPageContext doc now))
               = Ok (userPrompt ++ NL2 ++ t ++ NL2 ++ OUTPUT_INSTRUCTION_V1))
    by (unfold prompt_text_v1; rewrite Ht; reflexivity).
  destruct (attempts_from_head process_v1
              (stringify (request_body (userPrompt ++ NL2 ++ t ++ NL2 ++ OUTPUT_INSTRUCTION_V1))) 1 outs)
    as [evs Hevs]; [unfold MAX_RETRIES; lia |].
  exists evs. split; [exact Hp |]. unfold callGemini_v1. rewrite Hp. exact Hevs.
Qed.

(** The generated text of a reply with one candidate is its text, and an
    empty text is the "no generated text" error. *)
Theorem generated_text_api_response (t : string) :
  generated_text (api_response t)
  = if String.eqb t "" then Throw (Error "API response was successful but contained no generated text.")
    else Ok (JStr t).
Proof. destruct t; vm_compute; reflexivity. Qed.

(** A reply with no candidates, [null] candidates or an empty candidate
    list is the "no generated text" error. *)
Theorem generated_text_no_candidates (l : list (string * json)) :
  lookup "candidates" l = None \/ lookup "candidates" l = Some JNull
  \/ lookup "candidates" l = Some (JArr []) ->
  generated_text (JObj l) = Throw (Error "API response was successful but contained no generated text.").
Proof.
  unfold generated_text. cbn [get member bind]. intros [H | [H | H]]; rewrite H; reflexivity.
Qed.

Lemma generated_text_no_candidates_witness :
  lookup "candidates" [("promptFeedback", JObj [("blockReason", JStr "SAFETY")])] = None
  /\ generated_text (JObj [("promptFeedback", JObj [("blockReason", JStr "SAFETY")])])
     = Throw (Error "API response was successful but contained no generated text.").
Proof. split; [reflexivity |]. apply generated_text_no_candidates. left. reflexivity. Defined.

(** *** The loop of [background.js] *)

(** Three failing attempts of the loop of [background.js] (a rejected
    [fetch], a status that is not 2xx, or a 2xx body that is not JSON)
    give three requests with sleeps of 500 and 1000 ms between them, and
    the loop throws the error of the third attempt. *)
Theorem bg_callGemini_three_failures (payload : string) (o1 o2 o3 : outcome) (outs : list outcome)
    (e1 e2 e3 : js_error) :
  bg_attempt_error o1 = Some e1 -> bg_attempt_error o2 = Some e2 -> bg_attempt_error o3 = Some e3 ->
  BG.callGemini_loop payload (o1 :: o2 :: o3 :: outs)
  = ([EvFetch 1 payload; EvSleep 500; EvFetch 2 payload; EvSleep 1000; EvFetch 3 payload], Throw e3).
Proof.
  intros H1 H2 H3. unfold BG.callGemini_loop. change (Z.to_nat BG.maxAttempts) with 3%nat.
  rewrite (bg_attempt_error_retry _ 2 1 o1 _ e1) by (unfold BG.maxAttempts; lia || exact H1).
  cbn [Z.add].
  rewrite (bg_attempt_error_retry _ 1 2 o2 _ e2) by (unfold BG.maxAttempts; lia || exact H2).
  cbn [Z.add].
  rewrite (bg_attempt_error_last _ 0 o3 outs e3 H3). reflexivity.
Qed.

Lemma bg_callGemini_three_failures_witness :
  bg_attempt_error (FetchResponse 200 "{oops") = Some SyntaxError
  /\ bg_attempt_error (FetchResponse 429 "slow down") = Some (BG.returned_error 429 "slow down")
  /\ bg_attempt_error (FetchResponse 500 "down") = Some (BG.returned_error 500 "down")
  /\ BG.callGemini_loop "x" [FetchResponse 200 "{oops"; FetchResponse 429 "slow down"; FetchResponse 500 "down"]
     = ([EvFetch 1 "x"; EvSleep 500; EvFetch 2 "x"; EvSleep 1000; EvFetch 3 "x"],
        Throw (BG.returned_error 500 "down")).
Proof.
  split; [vm_compute; reflexivity |]. split; [reflexivity |]. split; [reflexivity |].
  apply (bg_callGemini_three_failures "x" _ _ _ [] SyntaxError (BG.returned_error 429 "slow down"));
    [vm_compute; reflexivity | reflexivity | reflexivity].
Defined.

(** The loop of [background.js] sleeps once per retry and makes at most
    three requests. *)
Theorem bg_callGemini_retries_fetches (payload : string) (outs : list outcome) :
  (retries (fst (BG.callGemini_loop payload outs)) + 1 = fetches (fst (BG.callGemini_loop payload outs)))%nat
  /\ (fetches (fst (BG.callGemini_loop payload outs)) <= 3)%nat.
Proof.
  unfold BG.callGemini_loop. change (Z.to_nat BG.maxAttempts) with 3%nat.
  apply bg_attempts_sleeps; [lia | reflexivity | lia].
Qed.

(** *** The AI service *)

(** A prompt that starts, after white space, with [mock:] in any case is
    a mock prompt: [generateTour] hands it to the mock provider and makes
    no request. *)
Theorem mock_prompt_no_call (callMockProvider : string -> option json -> except json)
    (w u r : string) (pageContext tour : option json) (outs : list outcome) :
  trim_left w = EmptyString -> toLowerCase u = "mock:" ->
  Services.isMockPrompt (w ++ u ++ r) = true
  /\ Services.generateTour callMockProvider (w ++ u ++ r) pageContext tour outs
     = ([], let* v := callMockProvider (w ++ u ++ r) pageContext in Ok (Some v)).
Proof.
  intros Hw Hu.
  assert (Hm : Services.isMockPrompt (w ++ u ++ r) = true).
  { unfold Services.isMockPrompt, trim. rewrite trim_left_ws_app by exact Hw.
    destruct u as [| c1 [| c2 [| c3 [| c4 [| c5 [| c6 u]]]]]]; try discriminate Hu.
    cbn [toLowerCase] in Hu. injection Hu as H1 H2 H3 H4 H5.
    pose proof (lower_not_ws _ _ H1 eq_refl) as W1. pose proof (lower_not_ws _ _ H2 eq_refl) as W2.
    pose proof (lower_not_ws _ _ H3 eq_refl) as W3. pose proof (lower_not_ws _ _ H4 eq_refl) as W4.
    pose proof (lower_not_ws _ _ H5 eq_refl) as W5.
    cbn [String.append trim_left]. rewrite W1.
    rewrite !trim_right_cons by assumption. cbn [toLowerCase]. rewrite H1, H2, H3, H4, H5.
    apply (prefix_app "mock:"). }
  split; [exact Hm |]. unfold Services.generateTour. rewrite Hm. reflexivity.
Qed.

Lemma mock_prompt_no_call_witness :
  trim_left (String (chr 9) " ") = EmptyString /\ toLowerCase "MoCk:" = "mock:"
  /\ Services.isMockPrompt (String (chr 9) " " ++ "MoCk:" ++ " demo") = true
  /\ Services.generateTour (fun _ _ => Ok JNull) (String (chr 9) " " ++ "MoCk:" ++ " demo") None None []
     = ([], let* v := Ok JNull in Ok (Some v)).
Proof.
  split; [reflexivity |]. split; [reflexivity |].
  apply (mock_prompt_no_call (fun _ _ => Ok JNull)); reflexivity.
Defined.

(** What [generateTour] returns for a prompt that is not a mock prompt is
    a value: an array of steps or a [fill_input_form] object. *)
Theorem generateTour_result_shape (callMockProvider : string -> option json -> except json)
    (prompt : string) (pageContext tour : option json) (outs : list outcome) (x : option json) :
  Services.isMockPrompt prompt = false ->
  snd (Services.generateTour callMockProvider prompt pageContext tour outs) = Ok x ->
  exists v, x = Some v /\ (isArray (Some v) = true \/ field v "type" = Some (JStr "fill_input_form")).
Proof.
  intros Hm H. unfold Services.generateTour in H. rewrite Hm in H.
  destruct (callGemini prompt pageContext tour outs) as [evs r]. cbn [snd] in H.
  destruct r as [m |]; [| discriminate]. cbn [bind] in H. exact (route_tour_shape _ _ H).
Qed.

Lemma generateTour_result_shape_witness :
  Services.isMockPrompt "Show me around" = false
  /\ snd (Services.generateTour (fun _ _ => Ok JNull) "Show me around" None None
            [FetchResponse 200 (stringify (api_response (stringify (JArr [JObj [("element", JStr "#a")]]))))])
     = Ok (Some (JArr [JObj [("element", JStr "#a")]]))
  /\ exists v, Some (JArr [JObj [("element", JStr "#a")]]) = Some v
       /\ (isArray (Some v) = true \/ field v "type" = Some (JStr "fill_input_form")).
Proof.
  split; [reflexivity |]. split; [vm_compute; reflexivity |].
  apply (generateTour_result_shape (fun _ _ => Ok JNull) "Show me around" None None
           [FetchResponse 200 (stringify (api_response (stringify (JArr [JObj [("element", JStr "#a")]]))))]);
    [reflexivity | vm_compute; reflexivity].
Defined.

(** When [callGemini] classifies its output as a tour, [generateTour]
    returns the output if it is an array, and otherwise (an object whose
    element ["0"] has a [popover]) throws "Expected tour steps but got
    type: tour". *)
Theorem generateTour_tour_result (callMockProvider : string -> option json -> except json)
    (prompt : string) (pageContext tour : option json) (outs : list outcome) (d : json) :
  Services.isMockPrompt prompt = false ->
  snd (callGemini prompt pageContext tour outs) = Ok (MRTour d) ->
  Services.generateTour callMockProvider prompt pageContext tour outs
  = (fst (callGemini prompt pageContext tour outs),
     if isArray (Some d) then Ok (Some d)
     else Throw (Error "Expected tour steps but got type: tour")).
Proof.
  intros Hm H. unfold Services.generateTour. rewrite Hm.
  destruct (callGemini prompt pageContext tour outs) as [evs r]. cbn [snd] in H. subst r.
  cbn [fst bind]. f_equal.
  destruct d as [| b | n | s | l | l]; try reflexivity.
  - destruct b; reflexivity.
  - unfold Services.route_tour. cbn. destruct (n =? 0); reflexivity.
  - unfold Services.route_tour. cbn. destruct (String.eqb s ""); reflexivity.
Qed.

Lemma generateTour_tour_result_witness :
  Services.isMockPrompt "p" = false
  /\ snd (callGemini "p" None None
            [FetchResponse 200 (stringify (api_response (stringify (JObj [("0", JObj [("popover", JNum 1)])]))))])
     = Ok (MRTour (JObj [("0", JObj [("popover", JNum 1)])]))
  /\ Services.generateTour (fun _ _ => Ok JNull) "p" None None
       [FetchResponse 200 (stringify (api_response (stringify (JObj [("0", JObj [("popover", JNum 1)])]))))]
     = (fst (callGemini "p" None None
              [FetchResponse 200 (stringify (api_response (stringify (JObj [("0", JObj [("popover", JNum 1)])]))))]),
        Throw (Error "Expected tour steps but got type: tour")).
Proof.
  split; [reflexivity |]. split; [vm_compute; reflexivity |].
  apply (generateTour_tour_result (fun _ _ => Ok JNull) "p" None None _
           (JObj [("0", JObj [("popover", JNum 1)])])); [reflexivity | vm_compute; reflexivity].
Defined.

(** When [callGemini] cannot classify its output, [generateTour] always
    throws "Expected tour steps but got type: unknown": such an output is
    never an array. *)
Theorem generateTour_unknown_rejected (callMockProvider : string -> option json -> except json)
    (prompt : string) (pageContext tour : option json) (outs : list outcome) (d : json) :
  Services.isMockPrompt prompt = false ->
  snd (callGemini prompt pageContext tour outs) = Ok (MRUnknown d) ->
  Services.generateTour callMockProvider prompt pageContext tour outs
  = (fst (callGemini prompt pageContext tour outs),
     Throw (Error "Expected tour steps but got type: unknown")).
Proof.
  intros Hm H. destruct (callGemini_ok_normalize _ _ _ _ _ H) as [r Hr].
  apply normalize_shape in Hr. destruct Hr as [-> Ha].
  unfold Services.generateTour. rewrite Hm.
  destruct (callGemini prompt pageContext tour outs) as [evs res]. cbn [snd] in H. subst res.
  cbn [fst bind]. f_equal.
  destruct r as [| b | n | s | l | l]; try discriminate Ha; try reflexivity.
  - destruct b; reflexivity.
  - unfold Services.route_tour. cbn. destruct (n =? 0); reflexivity.
  - unfold Services.route_tour. cbn. destruct (String.eqb s ""); reflexivity.
Qed.

Lemma generateTour_unknown_rejected_witness :
  Services.isMockPrompt "p" = false
  /\ snd (callGemini "p" None None
            [FetchResponse 200 (stringify (api_response (stringify (JObj [("answer", JNum 42)]))))])
     = Ok (MRUnknown (JObj [("answer", JNum 42)]))
  /\ Services.generateTour (fun _ _ => Ok JNull) "p" None None
       [FetchResponse 200 (stringify (api_response (stringify (JObj [("answer", JNum 42)]))))]
     = (fst (callGemini "p" None None
              [FetchResponse 200 (stringify (api_response (stringify (JObj [("answer", JNum 42)]))))]),
        Throw (Error "Expected tour steps but got type: unknown")).
Proof.
  split; [reflexivity |]. split; [vm_compute; reflexivity |].
  apply (generateTour_unknown_rejected (fun _ _ => Ok JNull) "p" None None _
           (JObj [("answer", JNum 42)])); [reflexivity | vm_compute; reflexivity].
Defined.

(** When [callGemini] recognises a form fill, [fillFormInputs] returns the
    extracted inputs. *)
Theorem fillFormInputs_fill (prompt : string) (tour : option json) (outs : list outcome)
    (tourName : option json) (formInput : json) :
  snd (callGemini prompt None tour outs) = Ok (MRFill tourName formInput) ->
  Services.fillFormInputs prompt tour outs = (fst (callGemini prompt None tour outs), Ok (Some formInput)).
Proof.
  intros H. destruct (callGemini_ok_normalize _ _ _ _ _ H) as [r Hr].
  apply normalize_shape in Hr. destruct Hr as [-> [l ->]].
  unfold Services.fillFormInputs.
  destruct (callGemini prompt None tour outs) as [evs res]. cbn [snd] in H. subst res.
  cbn [fst bind]. f_equal. destruct tourName; reflexivity.
Qed.

Lemma fillFormInputs_fill_witness :
  snd (callGemini "Sign me up" None
         (Some (JObj [("tourName", JStr "Signup"); ("formInputs", JObj [("email", JStr "")])]))
         [FetchResponse 200 (stringify (api_response (stringify (JObj [("email", JStr "a@b.c")]))))])
  = Ok (MRFill (Some (JStr "Signup")) (JObj [("email", JStr "a@b.c")]))
  /\ Services.fillFormInputs "Sign me up"
       (Some (JObj [("tourName", JStr "Signup"); ("formInputs", JObj [("email", JStr "")])]))
       [FetchResponse 200 (stringify (api_response (stringify (JObj [("email", JStr "a@b.c")]))))]
     = (fst (callGemini "Sign me up" None
               (Some (JObj [("tourName", JStr "Signup"); ("formInputs", JObj [("email", JStr "")])]))
               [FetchResponse 200 (stringify (api_response (stringify (JObj [("email", JStr "a@b.c")]))))]),
        Ok (Some (JObj [("email", JStr "a@b.c")]))).
Proof.
  split; [vm_compute; reflexivity |].
  apply (fillFormInputs_fill _ _ _ (Some (JStr "Signup"))). vm_compute. reflexivity.
Defined.

(** *** The coordinator's [GENERATE_TOUR] handler *)

(** Without a valid active tab, or without a saved API key, the handler
    makes no browser call and no model request, and answers with the
    error. *)
Theorem handleGenerateTour_precheck (tabs : list (option Z)) (stored prompt : option json)
    (ss : list send_result) (is : list inject_result) (outs : list outcome) (e : js_error) :
  Coordinator.getActiveTab tabs = Throw e
  \/ (exists tabId, Coordinator.getActiveTab tabs = Ok tabId) /\ Coordinator.getApiKey stored = Throw e ->
  Coordinator.run_handler tabs stored prompt ss is outs = ([], [], Ok (Coordinator.error_response e)).
Proof.
  intros [H | [[tabId H1] H2]];
    unfold Coordinator.run_handler, Coordinator.handleGenerateTour, Coordinator.ncatch,
      Coordinator.nbind, Coordinator.raise.
  - rewrite H. reflexivity.
  - rewrite H1, H2. reflexivity.
Qed.

Lemma handleGenerateTour_precheck_witness :
  Coordinator.getActiveTab [Some 0] = Throw (Error "No active tab found or tab is invalid.")
  /\ Coordinator.run_handler [Some 0] (Some (JStr "key")) None [Delivered None] [] []
     = ([], [], Ok (Coordinator.error_response (Error "No active tab found or tab is invalid."))).
Proof.
  split; [reflexivity |]. apply handleGenerateTour_precheck. left. reflexivity.
Defined.





(** *** The content script *)

(** [removeSvgFromHtml] leaves a text without [<] unchanged. *)
Theorem removeSvgFromHtml_no_tag (s : string) :
  includes s "<" = false -> removeSvgFromHtml s = s.
Proof. intros H. apply remove_svg_aux_plain, H. Qed.

Lemma removeSvgFromHtml_no_tag_witness :
  includes "a > b & c" "<" = false /\ removeSvgFromHtml "a > b & c" = "a > b & c".
Proof. split; [reflexivity |]. apply removeSvgFromHtml_no_tag. reflexivity. Defined.

(** [removeSvgFromHtml] never makes a text longer. *)
Theorem removeSvgFromHtml_shrinks (s : string) :
  (String.length (removeSvgFromHtml s) <= String.length s)%nat.
Proof. apply remove_svg_aux_length. Qed.

(** A complete [<svg ...>...</svg>] element at the head of the text is
    removed, and the rest is processed on its own. *)
Theorem removeSvgFromHtml_head (a b rest : string) :
  includes a ">" = false -> includes b "<" = false ->
  removeSvgFromHtml ("<svg" ++ a ++ String ">" b ++ "</svg>" ++ rest) = removeSvgFromHtml rest.
Proof.
  intros Ha Hb. unfold removeSvgFromHtml.
  set (s := "<svg" ++ a ++ String ">" b ++ "</svg>" ++ rest).
  assert (Hm : svg_match_at s = Some rest).
  { unfold s, svg_match_at. rewrite strip_prefix_app.
    replace (a ++ String ">" b ++ "</svg>" ++ rest) with (a ++ String ">" (b ++ "</svg>" ++ rest)) by reflexivity.
    rewrite skip_to_gt_app by exact Ha. apply after_svg_close_app, Hb. }
  change (remove_svg_aux (S (String.length s)) s) with
    (match svg_match_at s with Some r => remove_svg_aux (String.length s) r
     | None => match s with EmptyString => EmptyString | String c r => String c (remove_svg_aux (String.length s) r) end end).
  rewrite Hm. apply remove_svg_aux_fuel.
  - pose proof (svg_match_at_length _ _ Hm). lia.
  - lia.
Qed.

Lemma removeSvgFromHtml_head_witness :
  includes " width=12" ">" = false /\ includes "path d=0" "<" = false
  /\ removeSvgFromHtml ("<svg" ++ " width=12" ++ String ">" "path d=0" ++ "</svg>" ++ "Buy")
     = removeSvgFromHtml "Buy".
Proof. split; [reflexivity |]. split; [reflexivity |]. apply removeSvgFromHtml_head; reflexivity. Defined.

(** [normalizeDriverSteps] throws exactly when a step is [null], and then
    with a [TypeError]. *)
Theorem normalizeDriverSteps_null (steps : list json) :
  match normalizeDriverSteps steps with
  | Ok _ => ~ In JNull steps
  | Throw e => e = TypeError /\ In JNull steps
  end.
Proof. apply normalizeDriverSteps_cases. Qed.

(** For a [GEMINI_RESULT] message, [handleMessages] keeps the channel open
    and answers [ok: true] exactly when the result is a non-empty array
    with no [null] step, whatever [window.driver] is; the listener
    registered first answers with the same [ok]. *)
Theorem gemini_result_ok (l : list (string * json)) (doc : document) (now : Z) (w : window_driver) :
  lookup "type" l = Some (JStr "GEMINI_RESULT") ->
  exists reply reply',
    handleMessages (Some (JObj l)) doc now w = Ok (true, Some reply)
    /\ inline_gemini_result w (JObj l) = Ok reply'
    /\ field reply "ok" = field reply' "ok"
    /\ field reply "ok" = Some (JBool (match lookup "result" l with
                                       | Some (JArr ((_ :: _) as xs)) => forallb not_null xs
                                       | _ => false
                                       end)).
Proof.
  intros Ht.
  assert (Hh : handleMessages (Some (JObj l)) doc now w
               = Ok (true, Some (gemini_result_reply w (lookup "result" l)))).
  { unfold handleMessages. cbn [truthy negb get member bind]. rewrite Ht. reflexivity. }
  rewrite Hh. unfold inline_gemini_result, gemini_result_reply. cbn [get member bind].
  destruct (lookup "result" l) as [[| b | n | s | [| x xs] | m] |]; cbn [truthy].
  all: try close_reply.
  - destruct b; close_reply.
  - destruct (n =? 0); close_reply.
  - destruct (String.eqb s ""); close_reply.
  - destruct (runDriverjs_result w (x :: xs)) as [[y Hy] | [Hy Hf]]; rewrite Hy.
    + rewrite (runDriverjs_ok _ _ _ Hy). close_reply.
    + rewrite Hf. close_reply.
Qed.

Lemma gemini_result_ok_witness :
  lookup "type" [("type", JStr "GEMINI_RESULT"); ("result", JArr [JObj [("element", JStr "#a")]; JNull])]
  = Some (JStr "GEMINI_RESULT")
  /\ exists reply reply',
    handleMessages (Some (JObj [("type", JStr "GEMINI_RESULT");
                                ("result", JArr [JObj [("element", JStr "#a")]; JNull])]))
      {| title := "T"; href := "u"; body := None |} 0 DriverUndefined = Ok (true, Some reply)
    /\ inline_gemini_result DriverUndefined
         (JObj [("type", JStr "GEMINI_RESULT"); ("result", JArr [JObj [("element", JStr "#a")]; JNull])])
       = Ok reply'
    /\ field reply "ok" = field reply' "ok"
    /\ field reply "ok" = Some (JBool (forallb not_null [JObj [("element", JStr "#a")]; JNull])).
Proof.
  split; [reflexivity |].
  apply (gemini_result_ok [("type", JStr "GEMINI_RESULT"); ("result", JArr [JObj [("element", JStr "#a")]; JNull])]).
  reflexivity.
Defined.

End Extras.
